(** * The streaming chat client of the Next.js front end

    A shallow embedding of the [Home] component of [frontend/app/page.tsx]
    (the variant in which the browser supplies the API key) and of its
    sibling page (the variant in which the relay holds the key): the
    component state, the [handleSubmit] and [handleClearChat] handlers, the
    platform's streaming UTF-8 [TextDecoder], and the event loop that
    interleaves user actions with the network events of a submission. *)

From Stdlib Require Import ZArith NArith List String Ascii Bool Lia DecimalString.
From Stdlib Require DecimalPos DecimalN.
From stdpp Require Import base list.
Import ListNotations.
Local Open Scope Z_scope.

(** ** JavaScript strings *)

(** A JavaScript string is its sequence of UTF-16 code units. *)
Definition jsstring := list Z.

(** An ASCII literal of the source as a JavaScript string. *)
Definition lit (s : string) : jsstring :=
  map (fun a => Z.of_N (N_of_ascii a)) (list_ascii_of_string s).

(** [WhiteSpace] and [LineTerminator] code points of ECMAScript, the ones
    [String.prototype.trim] strips. *)
Definition is_white_space (c : Z) : bool :=
  (c =? 0x09) || (c =? 0x0A) || (c =? 0x0B) || (c =? 0x0C) || (c =? 0x0D)
  || (c =? 0x20) || (c =? 0xA0) || (c =? 0x1680)
  || ((0x2000 <=? c) && (c <=? 0x200A))
  || (c =? 0x2028) || (c =? 0x2029) || (c =? 0x202F) || (c =? 0x205F)
  || (c =? 0x3000) || (c =? 0xFEFF).

Fixpoint trimStart (s : jsstring) : jsstring :=
  match s with
  | [] => []
  | c :: r => if is_white_space c then trimStart r else s
  end.

Definition trimEnd (s : jsstring) : jsstring := rev (trimStart (rev s)).

(** [s.trim()] *)
Definition trim (s : jsstring) : jsstring := trimEnd (trimStart s).

(** Truthiness of a string: the empty string is the only falsy one. *)
Definition truthy (s : jsstring) : bool :=
  match s with [] => false | _ :: _ => true end.

(** [a || b] on strings *)
Definition or_else (a b : jsstring) : jsstring := if truthy a then a else b.

(** [s !== ''] *)
Definition not_empty (s : jsstring) : bool := truthy s.

(** A non-negative integer in a template literal: its decimal digits. *)
Definition number_to_string (n : N) : jsstring :=
  lit (NilZero.string_of_uint (N.to_uint n)).

(** ** The platform's [TextDecoder] for UTF-8, used with [{ stream: true }] *)

Module TextDecoder.

(** The state of the UTF-8 decoder of the Encoding Standard, and the
    [BOM seen] flag of the [TextDecoder] object that owns it. *)
Record t := mk {
  code_point : Z;
  bytes_seen : Z;
  bytes_needed : Z;
  lower_boundary : Z;
  upper_boundary : Z;
  bom_seen : bool
}.

(** [new TextDecoder()] *)
Definition new : t :=
  {| code_point := 0; bytes_seen := 0; bytes_needed := 0;
     lower_boundary := 0x80; upper_boundary := 0xBF; bom_seen := false |}.

Definition in_range (lo hi b : Z) : bool := (lo <=? b) && (b <=? hi).

Definition REPLACEMENT : Z := 0xFFFD.
Definition BOM : Z := 0xFEFF.

(** The decoder's handler when no continuation byte is pending: the byte
    is a whole character, opens a sequence, or is an error. *)
Definition lead (d : t) (b : Z) : t * list Z :=
  if in_range 0x00 0x7F b then (d, [b])
  else if in_range 0xC2 0xDF b then
    ({| code_point := Z.land b 0x1F; bytes_seen := 0; bytes_needed := 1;
        lower_boundary := 0x80; upper_boundary := 0xBF;
        bom_seen := bom_seen d |}, [])
  else if in_range 0xE0 0xEF b then
    ({| code_point := Z.land b 0xF; bytes_seen := 0; bytes_needed := 2;
        lower_boundary := if b =? 0xE0 then 0xA0 else 0x80;
        upper_boundary := if b =? 0xED then 0x9F else 0xBF;
        bom_seen := bom_seen d |}, [])
  else if in_range 0xF0 0xF4 b then
    ({| code_point := Z.land b 0x7; bytes_seen := 0; bytes_needed := 3;
        lower_boundary := if b =? 0xF0 then 0x90 else 0x80;
        upper_boundary := if b =? 0xF4 then 0x8F else 0xBF;
        bom_seen := bom_seen d |}, [])
  else (d, [REPLACEMENT]).

(** The decoder with its sequence state cleared. *)
Definition cleared (d : t) : t :=
  {| code_point := 0; bytes_seen := 0; bytes_needed := 0;
     lower_boundary := 0x80; upper_boundary := 0xBF; bom_seen := bom_seen d |}.

(** One byte through the decoder, with the replacement error mode: the code
    points it emits.  A byte that cannot continue the open sequence ends it
    with U+FFFD and is processed again as a lead byte. *)
Definition handler (d : t) (b : Z) : t * list Z :=
  if bytes_needed d =? 0 then lead d b
  else if negb (in_range (lower_boundary d) (upper_boundary d) b) then
    let '(d', out) := lead (cleared d) b in (d', REPLACEMENT :: out)
  else
    let cp := Z.lor (Z.shiftl (code_point d) 6) (Z.land b 0x3F) in
    let seen := bytes_seen d + 1 in
    if negb (seen =? bytes_needed d) then
      ({| code_point := cp; bytes_seen := seen; bytes_needed := bytes_needed d;
          lower_boundary := 0x80; upper_boundary := 0xBF;
          bom_seen := bom_seen d |}, [])
    else (cleared d, [cp]).

(** All the bytes of one chunk.  With [stream: true] the end of the chunk
    is not an end of input: an open sequence stays in the state. *)
Fixpoint process (d : t) (input : list Z) : t * list Z :=
  match input with
  | [] => (d, [])
  | b :: r =>
      let '(d1, o1) := handler d b in
      let '(d2, o2) := process d1 r in
      (d2, o1 ++ o2)
  end.

(** The decoder once [BOM seen] is set. *)
Definition set_bom (d : t) : t :=
  {| code_point := code_point d; bytes_seen := bytes_seen d;
     bytes_needed := bytes_needed d; lower_boundary := lower_boundary d;
     upper_boundary := upper_boundary d; bom_seen := true |}.

(** A code point as UTF-16 code units. *)
Definition utf16 (cp : Z) : jsstring :=
  if cp <? 0x10000 then [cp]
  else [0xD800 + Z.shiftr (cp - 0x10000) 10; 0xDC00 + Z.land (cp - 0x10000) 0x3FF].

(** Serialising the decoded code points.  [new TextDecoder()] leaves
    [ignoreBOM] at its default, false: the decoder takes a U+FEFF that is the
    first code point of the whole stream for a signature and does not pass
    it on; [BOM seen] is set once the first code point went by. *)
Definition serialize (d : t) (out : list Z) : t * jsstring :=
  if bom_seen d then (d, flat_map utf16 out)
  else match out with
       | [] => (d, [])
       | cp :: r => (set_bom d, flat_map utf16 (if cp =? BOM then r else cp :: r))
       end.

(** [decoder.decode(value, { stream: true })] *)
Definition decode (d : t) (value : list Z) : t * jsstring :=
  let '(d1, out) := process d value in serialize d1 out.

(** The decoder and the whole text after a run of chunks. *)
Fixpoint decode_chunks (d : t) (chunks : list (list Z)) : t * jsstring :=
  match chunks with
  | [] => (d, [])
  | c :: rest =>
      let '(d1, s1) := decode d c in
      let '(d2, s2) := decode_chunks d1 rest in
      (d2, s1 ++ s2)
  end.

(** What a decoder that kept no state between reads would return. *)
Definition decode_stateless (value : list Z) : jsstring :=
  snd (decode new value).

End TextDecoder.

(** The UTF-8 encoder of the Encoding Standard, which the relay's response
    body goes through: the bytes of one scalar value. *)
Definition utf8_encode (cp : Z) : list Z :=
  if cp <=? 0x7F then [cp]
  else if cp <=? 0x7FF then
    [Z.shiftr cp 6 + 0xC0; Z.lor 0x80 (Z.land cp 0x3F)]
  else if cp <=? 0xFFFF then
    [Z.shiftr cp 12 + 0xE0; Z.lor 0x80 (Z.land (Z.shiftr cp 6) 0x3F);
     Z.lor 0x80 (Z.land cp 0x3F)]
  else
    [Z.shiftr cp 18 + 0xF0; Z.lor 0x80 (Z.land (Z.shiftr cp 12) 0x3F);
     Z.lor 0x80 (Z.land (Z.shiftr cp 6) 0x3F); Z.lor 0x80 (Z.land cp 0x3F)].

(** Unicode scalar values: code points that are not surrogates. *)
Definition scalar_value (cp : Z) : Prop :=
  (0 <= cp <= 0xD7FF) \/ (0xE000 <= cp <= 0x10FFFF).

(** ** The component state *)

(** An element of [messages]: [{ role: string; content: string }]. *)
Record Message := { role : jsstring; content : jsstring }.

(** The [useState] cells of [Home].  [apiKey] exists only in the page where
    the browser supplies the key. *)
Record State := {
  apiKey : jsstring;
  developerMessage : jsstring;
  userMessage : jsstring;
  model : jsstring;
  messages : list Message;
  isLoading : bool;
  error : jsstring
}.

(** The initial values of the cells. *)
Definition initial_state : State :=
  {| apiKey := []; developerMessage := []; userMessage := [];
     model := lit "gpt-4.1-mini"; messages := []; isLoading := false;
     error := [] |}.

(** The two pages: [ClientKey] is [frontend/app/page.tsx], which asks the
    user for an API key and sends it; [RelayKey] is the page that sends no
    key. *)
Inductive Page := ClientKey | RelayKey.

(** What the build fixes: the page, and [process.env.NEXT_PUBLIC_API_URL]
    ([None] when undefined). *)
Record Env := { page : Page; NEXT_PUBLIC_API_URL : option jsstring }.

(** The [fetch] call: its URL and the fields of its JSON body ([api_key] is
    absent on the [RelayKey] page). *)
Record Request := {
  url : jsstring;
  api_key : option jsstring;
  developer_message : jsstring;
  user_message : jsstring;
  req_model : jsstring
}.

(** [updated[i] = v] on a copy of the array, as far as the elements go.  A
    negative index names an ordinary property: no element changes and the
    length stays.  An index below the length replaces that element.  (An
    index at or above the length would grow the array; [handleSubmit] only
    writes at [length - 1], see [last_index_lt_length].) *)
Definition array_set {A} (arr : list A) (i : Z) (v : A) : list A :=
  if i <? 0 then arr else <[Z.to_nat i := v]> arr.

(** The arguments [setMessages] is called with. *)
Inductive Updater :=
| Append (m : Message)        (* prev => [...prev, m] *)
| ReplaceLast (m : Message)   (* prev => { updated = [...prev]; updated[updated.length - 1] = m; return updated } *)
| DropEmpty                   (* prev => prev.filter(msg => msg.content !== '') *)
| ClearAll.                      (* [] *)

Definition apply_updater (u : Updater) (prev : list Message) : list Message :=
  match u with
  | Append m => prev ++ [m]
  | ReplaceLast m => array_set prev (Z.of_nat (length prev) - 1) m
  | DropEmpty => List.filter (fun msg => not_empty (content msg)) prev
  | ClearAll => []
  end.

(** The effects of the handlers, in the order the code performs them. *)
Inductive Action :=
| SetApiKey (s : jsstring)
| SetDeveloperMessage (s : jsstring)
| SetUserMessage (s : jsstring)
| SetModel (s : jsstring)
| SetMessages (u : Updater)
| SetIsLoading (b : bool)
| SetError (e : jsstring)
| Fetch (r : Request).

Definition apply_action (s : State) (a : Action) : State :=
  {| apiKey := match a with SetApiKey k => k | _ => apiKey s end;
     developerMessage :=
       match a with SetDeveloperMessage m => m | _ => developerMessage s end;
     userMessage := match a with SetUserMessage m => m | _ => userMessage s end;
     model := match a with SetModel m => m | _ => model s end;
     messages :=
       match a with
       | SetMessages u => apply_updater u (messages s)
       | _ => messages s
       end;
     isLoading := match a with SetIsLoading b => b | _ => isLoading s end;
     error := match a with SetError e => e | _ => error s end |}.

(** The state after a run of effects. *)
Definition perform (s : State) (acts : list Action) : State :=
  fold_left apply_action acts s.

(** The state with another message list. *)
Definition with_messages (s : State) (ms : list Message) : State :=
  {| apiKey := apiKey s; developerMessage := developerMessage s;
     userMessage := userMessage s; model := model s; messages := ms;
     isLoading := isLoading s; error := error s |}.

(** ** [handleSubmit] *)

(** A value caught by [catch (err)]: an [Error] with its message, or
    anything else. *)
Inductive Thrown := ErrorObject (message : jsstring) | OtherValue.

(** How the [fetch] promise settles: rejected, or fulfilled with a response
    of some status whose [body] is a stream or null. *)
Inductive FetchResult :=
| FetchRejected (err : Thrown)
| Response (status : N) (has_body : bool).

(** How one [reader.read()] settles. *)
Inductive ReadResult :=
| ReadValue (value : list Z)      (* { done: false, value } *)
| ReadDone                        (* { done: true } *)
| ReadRejected (err : Thrown).

(** Where a running [handleSubmit] is suspended. *)
Inductive Phase := AwaitFetch | AwaitRead.

(** The locals of a running [handleSubmit] that live across its awaits
    ([assistantMessage] and [decoder] are declared once the response is in). *)
Record Task := {
  phase : Phase;
  assistantMessage : jsstring;
  decoder : TextDecoder.t
}.

(** [response.ok] *)
Definition ok (status : N) : bool := ((200 <=? status) && (status <=? 299))%N.

(** [err instanceof Error ? err.message : 'An error occurred'] *)
Definition error_text (err : Thrown) : jsstring :=
  match err with
  | ErrorObject message => message
  | OtherValue => lit "An error occurred"
  end.

(** The [catch] block. *)
Definition catch_block (err : Thrown) : list Action :=
  [ SetError (error_text err); SetMessages DropEmpty ].

(** The [finally] block. *)
Definition finally_block : list Action := [ SetIsLoading false ].

Definition user_turn (s : State) : Message :=
  {| role := lit "user"; content := userMessage s |}.

Definition assistant_turn (text : jsstring) : Message :=
  {| role := lit "assistant"; content := text |}.

Definition request (env : Env) (s : State) : Request :=
  {| url := match NEXT_PUBLIC_API_URL env with
            | Some u => or_else u (lit "http://localhost:8000")
            | None => lit "http://localhost:8000"
            end ++ lit "/api/chat";
     api_key := match page env with
                | ClientKey => Some (apiKey s)
                | RelayKey => None
                end;
     developer_message :=
       or_else (developerMessage s) (lit "You are a helpful assistant.");
     user_message := userMessage s;
     req_model := model s |}.

(** The validations at the top of [handleSubmit]: the message of the one
    that rejects, if any.  Only the [ClientKey] page checks the key, and it
    does so first. *)
Definition validation (env : Env) (s : State) : option jsstring :=
  if match page env with
     | ClientKey => negb (truthy (trim (apiKey s)))
     | RelayKey => false
     end
  then Some (lit "Please provide an API key")
  else if negb (truthy (trim (userMessage s)))
  then Some (lit "Please enter a message")
  else None.

(** From the call to the first [await]: the effects, and the suspended task
    when the handler did not return at a validation. *)
Definition handleSubmit (env : Env) (s : State) : list Action * option Task :=
  match validation env s with
  | Some msg => ([SetError msg], None)
  | None =>
      ([SetError []; SetIsLoading true; SetMessages (Append (user_turn s));
        Fetch (request env s)],
       Some {| phase := AwaitFetch; assistantMessage := [];
               decoder := TextDecoder.new |})
  end.

(** From the settled [fetch] to the first [reader.read()]. *)
Definition after_fetch (r : FetchResult) : list Action * option Task :=
  match r with
  | FetchRejected err => (catch_block err ++ finally_block, None)
  | Response status has_body =>
      if negb (ok status) then
        (catch_block (ErrorObject (lit "API error: " ++ number_to_string status))
           ++ finally_block, None)
      else if negb has_body then
        (catch_block (ErrorObject (lit "No response body")) ++ finally_block,
         None)
      else
        ([SetMessages (Append (assistant_turn []))],
         Some {| phase := AwaitRead; assistantMessage := [];
                 decoder := TextDecoder.new |})
  end.

(** One turn of the [while (true)] loop, from a settled [reader.read()] to
    the next one or to the end of the handler. *)
Definition after_read (t : Task) (r : ReadResult) : list Action * option Task :=
  match r with
  | ReadDone => ([SetUserMessage []] ++ finally_block, None)
  | ReadRejected err => (catch_block err ++ finally_block, None)
  | ReadValue value =>
      let '(d, chunk) := TextDecoder.decode (decoder t) value in
      let assistantMessage' := assistantMessage t ++ chunk in
      ([SetMessages (ReplaceLast (assistant_turn assistantMessage'))],
       Some {| phase := AwaitRead; assistantMessage := assistantMessage';
               decoder := d |})
  end.

(** [handleClearChat] *)
Definition handleClearChat : list Action := [SetMessages ClearAll; SetError []].

(** ** One submission, left alone

    A submission run against a script of what the network does, with no
    other handler in between. *)

Fixpoint read_loop (s : State) (t : Task) (reads : list ReadResult)
  : State * option Task :=
  match reads with
  | [] => (s, Some t)
  | r :: rest =>
      let '(acts, k) := after_read t r in
      match k with
      | Some t' => read_loop (perform s acts) t' rest
      | None => (perform s acts, None)
      end
  end.

Definition submission (env : Env) (s : State) (f : FetchResult)
    (reads : list ReadResult) : State * option Task :=
  let '(acts0, k0) := handleSubmit env s in
  match k0 with
  | None => (perform s acts0, None)
  | Some _ =>
      let '(acts1, k1) := after_fetch f in
      match k1 with
      | None => (perform (perform s acts0) acts1, None)
      | Some t => read_loop (perform (perform s acts0) acts1) t reads
      end
  end.

(** The text each increment contributes, through the one decoder. *)
Fixpoint increment_texts (d : TextDecoder.t) (chunks : list (list Z))
  : list jsstring :=
  match chunks with
  | [] => []
  | c :: rest =>
      let '(d', text) := TextDecoder.decode d c in
      text :: increment_texts d' rest
  end.

(** ** The page as a whole

    The handlers interleave: user actions go on while submissions are
    suspended at an [await].  The render decides which user actions are
    possible.  The form's only field and its submit button both carry
    [disabled={isLoading}]: while the flag is set nothing can be typed into
    the message field and the form cannot be submitted.  The Clear Chat
    button is rendered when [messages.length > 0].  The key field (on the
    page that has one), the system prompt and the model are always open. *)

Record Config := { state : State; tasks : list Task }.

Definition initial : Config := {| state := initial_state; tasks := [] |}.

Inductive Event :=
| TypeApiKey (s : jsstring)
| TypeDeveloperMessage (s : jsstring)
| TypeUserMessage (s : jsstring)
| SelectModel (s : jsstring)
| Submit
| ClearChat
| FetchSettles (i : nat) (r : FetchResult)
| ReadSettles (i : nat) (r : ReadResult).

(** The running submission [i] moves on: it is replaced by its continuation,
    or leaves. *)
Definition resume (c : Config) (i : nat) (k : list Action * option Task) : Config :=
  {| state := perform (state c) (fst k);
     tasks := match snd k with
              | Some t' => <[i := t']> (tasks c)
              | None => delete i (tasks c)
              end |}.

(** One event; [None] when the page does not offer it. *)
Definition step (env : Env) (c : Config) (e : Event) : option Config :=
  let s := state c in
  match e with
  | TypeApiKey k =>
      match page env with
      | ClientKey => Some {| state := perform s [SetApiKey k]; tasks := tasks c |}
      | RelayKey => None
      end
  | TypeDeveloperMessage m =>
      Some {| state := perform s [SetDeveloperMessage m]; tasks := tasks c |}
  | TypeUserMessage m =>
      if isLoading s then None
      else Some {| state := perform s [SetUserMessage m]; tasks := tasks c |}
  | SelectModel m =>
      Some {| state := perform s [SetModel m]; tasks := tasks c |}
  | Submit =>
      if isLoading s then None
      else
        let '(acts, k) := handleSubmit env s in
        Some {| state := perform s acts;
                tasks := tasks c ++ match k with Some t => [t] | None => [] end |}
  | ClearChat =>
      match messages s with
      | [] => None
      | _ :: _ => Some {| state := perform s handleClearChat; tasks := tasks c |}
      end
  | FetchSettles i r =>
      match tasks c !! i with
      | Some t =>
          match phase t with
          | AwaitFetch => Some (resume c i (after_fetch r))
          | AwaitRead => None
          end
      | None => None
      end
  | ReadSettles i r =>
      match tasks c !! i with
      | Some t =>
          match phase t with
          | AwaitRead => Some (resume c i (after_read t r))
          | AwaitFetch => None
          end
      | None => None
      end
  end.

Fixpoint run (env : Env) (c : Config) (evs : list Event) : option Config :=
  match evs with
  | [] => Some c
  | e :: rest =>
      match step env c e with
      | Some c' => run env c' rest
      | None => None
      end
  end.

Definition reachable (env : Env) (c : Config) : Prop :=
  exists evs, run env initial evs = Some c.

(** The running submissions that are reading the body stream. *)
Definition streaming (c : Config) : list Task :=
  List.filter (fun t => match phase t with AwaitRead => true | AwaitFetch => false end)
    (tasks c).

(** The positions of the turns that are growing: for each submission that
    is reading, the element its next increment is written to, when the list
    has one. *)
Definition growing_turns (c : Config) : list nat :=
  flat_map (fun _ : Task =>
              match messages (state c) with
              | [] => []
              | _ :: _ => [(length (messages (state c)) - 1)%nat]
              end)
           (streaming c).

(** Events that arrive while a submission is still running. *)
Fixpoint run_while_pending (env : Env) (c : Config) (evs : list Event)
  : option Config :=
  match evs with
  | [] => Some c
  | e :: rest =>
      match tasks c with
      | [] => None
      | _ :: _ =>
          match step env c e with
          | Some c' => run_while_pending env c' rest
          | None => None
          end
      end
  end.

(** The running submissions, given what a handler left suspended. *)
Definition pending (k : option Task) : list Task :=
  match k with Some t => [t] | None => [] end.

(** The events of one submission left alone: the submit, the response, the
    reads. *)
Definition script (f : FetchResult) (reads : list ReadResult) : list Event :=
  Submit :: FetchSettles 0 f :: map (ReadSettles 0) reads.

(** The events that only fill in the key, the system prompt or the model. *)
Definition settings (e : Event) : bool :=
  match e with
  | TypeApiKey _ | TypeDeveloperMessage _ | SelectModel _ => true
  | _ => false
  end.

Definition is_submit (e : Event) : bool :=
  match e with Submit => true | _ => false end.

(** Two pages that differ at most in the key, the system prompt and the
    model. *)
Definition same_conversation (c1 c2 : Config) : Prop :=
  messages (state c1) = messages (state c2)
  /\ isLoading (state c1) = isLoading (state c2)
  /\ error (state c1) = error (state c2)
  /\ userMessage (state c1) = userMessage (state c2)
  /\ tasks c1 = tasks c2.

(** ** Reading the conversation *)

(** [a === b] on strings *)
Definition string_eqb (a b : jsstring) : bool := bool_decide (a = b).

Definition is_assistant (m : Message) : bool := string_eqb (role m) (lit "assistant").

Definition assistant_turns (ms : list Message) : list Message :=
  List.filter is_assistant ms.

(** [hay.includes(needle)] *)
Definition includes (hay needle : jsstring) : Prop :=
  exists before after, hay = before ++ needle ++ after.

(** The error messages a run of effects puts on the page: the non-empty
    strings given to [setError]. *)
Fixpoint surfaced (acts : list Action) : list jsstring :=
  match acts with
  | [] => []
  | SetError e :: rest => if truthy e then e :: surfaced rest else surfaced rest
  | _ :: rest => surfaced rest
  end.

(** The [fetch] calls in a run of effects. *)
Fixpoint fetches (acts : list Action) : list Request :=
  match acts with
  | [] => []
  | Fetch r :: rest => r :: fetches rest
  | _ :: rest => fetches rest
  end.

(** The turns a run of effects appends. *)
Fixpoint appended (acts : list Action) : list Message :=
  match acts with
  | [] => []
  | SetMessages (Append m) :: rest => m :: appended rest
  | _ :: rest => appended rest
  end.

(** ** Sample pages and sessions *)

Definition relay_page : Env := {| page := RelayKey; NEXT_PUBLIC_API_URL := None |}.
Definition client_page : Env := {| page := ClientKey; NEXT_PUBLIC_API_URL := None |}.

(** The fresh page with [msg] typed in the message field. *)
Definition typed (msg : string) : State :=
  perform initial_state [SetUserMessage (lit msg)].

(** The fresh page with a key and a message typed. *)
Definition with_key : State :=
  perform initial_state [SetApiKey (lit "sk-test"); SetUserMessage (lit "Hello")].

(** A question answered with [Hi], and a second question typed. *)
Definition second_question : list Event :=
  [ TypeUserMessage (lit "Hello"); Submit;
    FetchSettles 0 (Response 200 true);
    ReadSettles 0 (ReadValue [0x48; 0x69]); ReadSettles 0 ReadDone;
    TypeUserMessage (lit "And then?") ].

(** A question answered with an empty body, and a second question typed. *)
Definition after_empty_answer : list Event :=
  [ TypeUserMessage (lit "Hello"); Submit;
    FetchSettles 0 (Response 200 true); ReadSettles 0 ReadDone;
    TypeUserMessage (lit "And then?") ].

(** A question whose answer has started to stream. *)
Definition mid_stream : list Event :=
  [ TypeUserMessage (lit "Hello"); Submit;
    FetchSettles 0 (Response 200 true);
    ReadSettles 0 (ReadValue [0x48]) ].

(** What holds of the page at all times: at most one submission is running,
    the loading flag says whether one is, and while it reads the body stream
    the last turn, if the list has one, is the assistant turn with the text
    received so far. *)
Definition invariant (c : Config) : Prop :=
  match tasks c with
  | [] => isLoading (state c) = false
  | [t] =>
      isLoading (state c) = true
      /\ (phase t = AwaitRead ->
          messages (state c) = []
          \/ exists pre,
               messages (state c) = pre ++ [assistant_turn (assistantMessage t)])
  | _ :: _ :: _ => False
  end.

(** The cleared page while the orphaned submission reads: the list is empty
    and stays so. *)
Definition cleared_and_streaming (c : Config) : Prop :=
  messages (state c) = []
  /\ match tasks c with
     | [] => True
     | [t] => isLoading (state c) = true /\ phase t = AwaitRead
     | _ :: _ :: _ => False
     end.

(** The page right after Clear Chat. *)
Definition after_clear (c : Config) : Config :=
  {| state := perform (state c) handleClearChat; tasks := tasks c |}.

(** A question sent, the response not yet in. *)
Definition awaiting_response : list Event :=
  [ TypeUserMessage (lit "Hello"); Submit ].

(** ** What the page shows

    The part of the render that depends on the state: the header of the
    conversation, the bubbles, the error box and the form. *)

(** The inside of a bubble: the content as plain text ([<p>]), the content
    handed to [ReactMarkdown], the three pulsing dots, or nothing. *)
Inductive Body :=
| PlainText (text : jsstring)
| Markdown (source : jsstring)
| TypingDots
| NoBody.

Record Bubble := {
  on_the_right : bool;      (* justify-end, blue *)
  label : jsstring;
  body : Body
}.

Record View := {
  clear_chat_button : bool;
  empty_notice : bool;              (* No messages yet. Start a conversation below! *)
  bubbles : list Bubble;
  error_box : option jsstring;
  key_field : option jsstring;      (* the password field of the page with a key *)
  prompt_field : jsstring;
  model_selected : jsstring;
  message_field : jsstring;
  form_disabled : bool;             (* disabled={isLoading} on the field and the button *)
  send_label : jsstring
}.

(** One element of [messages.map((message, index) => ...)].  The page
    without a key field renders an assistant's content as Markdown and, when
    that content is empty, the dots under
    [isLoading && index === messages.length - 1]; the page with a key field
    renders every content as plain text. *)
Definition render_message (env : Env) (s : State) (index : nat) (message : Message)
  : Bubble :=
  let user := string_eqb (role message) (lit "user") in
  {| on_the_right := user;
     label := if user then lit "You" else lit "Assistant";
     body :=
       match page env with
       | ClientKey => PlainText (content message)
       | RelayKey =>
           if user then PlainText (content message)
           else if truthy (content message) then Markdown (content message)
           else if isLoading s
                   && (Z.of_nat index =? Z.of_nat (length (messages s)) - 1)
                then TypingDots
                else NoBody
       end |}.

Definition render (env : Env) (s : State) : View :=
  {| clear_chat_button := 0 <? Z.of_nat (length (messages s));
     empty_notice := Z.of_nat (length (messages s)) =? 0;
     bubbles := imap (render_message env s) (messages s);
     error_box := if truthy (error s) then Some (error s) else None;
     key_field := match page env with
                  | ClientKey => Some (apiKey s)
                  | RelayKey => None
                  end;
     prompt_field := developerMessage s;
     model_selected := model s;
     message_field := userMessage s;
     form_disabled := isLoading s;
     send_label := if isLoading s then lit "Sending..." else lit "Send" |}.

(** Whether bubble [i] of a view shows the dots. *)
Definition shows_dots (v : View) (i : nat) : bool :=
  match bubbles v !! i with
  | Some b => match body b with TypingDots => true | _ => false end
  | None => false
  end.

(** ** What the conversation holds *)

(** A turn as the handlers make them: the user's, with a content that is not
    blank, or the assistant's. *)
Definition handler_made (m : Message) : Prop :=
  (role m = lit "user" /\ truthy (trim (content m)) = true)
  \/ role m = lit "assistant".

(** What holds of the page beside [invariant]: the turns are handler-made,
    no error is set while a submission runs, and while the response is
    awaited the list, unless it was cleared, ends with a user turn. *)
Definition invariant_page (c : Config) : Prop :=
  Forall handler_made (messages (state c))
  /\ (tasks c <> [] -> error (state c) = [])
  /\ (forall t, tasks c = [t] -> phase t = AwaitFetch ->
        messages (state c) = []
        \/ exists pre m, messages (state c) = pre ++ [m] /\ role m = lit "user").

(** A text without the byte order mark it may begin with. *)
Definition without_signature (text : list Z) : list Z :=
  match text with
  | [] => []
  | cp :: rest => if cp =? TextDecoder.BOM then rest else text
  end.

(** How a submission that passed the validations came to its end. *)
Inductive Ending :=
| Completed            (* the stream ended: [break] out of the loop *)
| Failed (err : Thrown). (* the [catch] block ran *)

(** The ending the script leads to, [None] while the handler is suspended.
    The reads after the one that ends the loop never happen. *)
Fixpoint reads_ending (reads : list ReadResult) : option Ending :=
  match reads with
  | [] => None
  | ReadValue _ :: rest => reads_ending rest
  | ReadDone :: _ => Some Completed
  | ReadRejected err :: _ => Some (Failed err)
  end.

Definition ending (f : FetchResult) (reads : list ReadResult) : option Ending :=
  match f with
  | FetchRejected err => Some (Failed err)
  | Response status has_body =>
      if negb (ok status) then
        Some (Failed (ErrorObject (lit "API error: " ++ number_to_string status)))
      else if negb has_body then Some (Failed (ErrorObject (lit "No response body")))
      else reads_ending reads
  end.

(** ** The decoder is a byte-by-byte machine *)

Module TextDecoderFacts.
Import TextDecoder.

Lemma set_bom_seen d : bom_seen d = true -> set_bom d = d.
Proof. destruct d; simpl; intros ->; reflexivity. Qed.

Lemma lead_set_bom d b :
  lead (set_bom d) b = (set_bom (fst (lead d b)), snd (lead d b)).
Proof.
  unfold lead.
  repeat match goal with |- context [if in_range ?a ?c b then _ else _] =>
    destruct (in_range a c b) end; reflexivity.
Qed.

Lemma handler_set_bom d b :
  handler (set_bom d) b = (set_bom (fst (handler d b)), snd (handler d b)).
Proof.
  unfold handler. cbn [bytes_needed lower_boundary upper_boundary set_bom
                       code_point bytes_seen bom_seen].
  destruct (bytes_needed d =? 0); [apply lead_set_bom|].
  destruct (negb (in_range (lower_boundary d) (upper_boundary d) b)).
  - change (cleared (set_bom d)) with (set_bom (cleared d)).
    rewrite lead_set_bom. destruct (lead (cleared d) b); reflexivity.
  - destruct (negb (bytes_seen d + 1 =? bytes_needed d)); reflexivity.
Qed.

Lemma process_set_bom d input :
  process (set_bom d) input
  = (set_bom (fst (process d input)), snd (process d input)).
Proof.
  revert d; induction input as [|b r IH]; intros d; [reflexivity|].
  cbn [process]. rewrite handler_set_bom.
  destruct (handler d b) as [d1 o1]; cbn [fst snd].
  rewrite IH. destruct (process d1 r); reflexivity.
Qed.

Lemma lead_bom_seen d b : bom_seen (fst (lead d b)) = bom_seen d.
Proof.
  unfold lead.
  repeat match goal with |- context [if in_range ?a ?c b then _ else _] =>
    destruct (in_range a c b) end; reflexivity.
Qed.

Lemma handler_bom_seen d b : bom_seen (fst (handler d b)) = bom_seen d.
Proof.
  unfold handler.
  destruct (bytes_needed d =? 0); [apply lead_bom_seen|].
  destruct (negb (in_range (lower_boundary d) (upper_boundary d) b)).
  - pose proof (lead_bom_seen (cleared d) b) as H.
    destruct (lead (cleared d) b); exact H.
  - destruct (negb (bytes_seen d + 1 =? bytes_needed d)); reflexivity.
Qed.

Lemma process_bom_seen d input : bom_seen (fst (process d input)) = bom_seen d.
Proof.
  revert d; induction input as [|b r IH]; intros d; [reflexivity|].
  cbn [process]. pose proof (handler_bom_seen d b) as Hh.
  destruct (handler d b) as [d1 o1]; cbn [fst] in Hh.
  specialize (IH d1). destruct (process d1 r); cbn [fst] in *. congruence.
Qed.

(** Bytes fed in two goes are bytes fed in one. *)
Lemma process_app d a b :
  process d (a ++ b)
  = (fst (process (fst (process d a)) b),
     snd (process d a) ++ snd (process (fst (process d a)) b)).
Proof.
  revert d; induction a as [|x a IH]; intros d.
  - cbn. destruct (process d b); reflexivity.
  - cbn [app process]. destruct (handler d x) as [d1 o1].
    rewrite IH. destruct (process d1 a) as [d2 o2]; cbn [fst snd].
    destruct (process d2 b); cbn [fst snd]. rewrite app_assoc. reflexivity.
Qed.

Lemma flat_map_utf16_app (o1 o2 : list Z) :
  flat_map utf16 (o1 ++ o2) = flat_map utf16 o1 ++ flat_map utf16 o2.
Proof. apply flat_map_app. Qed.

Lemma serialize_bom_seen d out :
  bom_seen d = true -> serialize d out = (d, flat_map utf16 out).
Proof. unfold serialize; intros ->; reflexivity. Qed.

Lemma serialize_fresh d cp out :
  bom_seen d = false ->
  serialize d (cp :: out)
  = (set_bom d, flat_map utf16 (if cp =? BOM then out else cp :: out)).
Proof. unfold serialize; intros ->; reflexivity. Qed.

Lemma serialize_nil d : serialize d [] = (d, []).
Proof. unfold serialize; destruct (bom_seen d); reflexivity. Qed.

(** [decode] on a chunk cut in two: the second part meets the decoder the
    first part left, and the texts concatenate. *)
Theorem decode_app d a b :
  decode d (a ++ b)
  = (fst (decode (fst (decode d a)) b),
     snd (decode d a) ++ snd (decode (fst (decode d a)) b)).
Proof.
  unfold decode. rewrite process_app.
  pose proof (process_bom_seen d a) as Hb1.
  destruct (process d a) as [d1 o1]; cbn [fst snd] in *.
  destruct (bom_seen d) eqn:Hd.
  - rewrite (serialize_bom_seen d1 o1 Hb1); cbn [fst snd].
    pose proof (process_bom_seen d1 b) as Hb2.
    destruct (process d1 b) as [d2 o2]; cbn [fst snd] in *.
    rewrite !serialize_bom_seen by congruence. cbn [fst snd].
    rewrite flat_map_utf16_app. reflexivity.
  - destruct o1 as [|cp o1].
    + rewrite serialize_nil; cbn [fst snd app].
      destruct (process d1 b) as [d2 o2]; cbn [fst snd].
      destruct (serialize d2 o2); reflexivity.
    + rewrite (serialize_fresh d1 cp o1 Hb1); cbn [fst snd].
      rewrite process_set_bom.
      pose proof (process_bom_seen d1 b) as Hb2.
      destruct (process d1 b) as [d2 o2]; cbn [fst snd] in *.
      rewrite <- app_comm_cons, serialize_fresh by congruence.
      rewrite serialize_bom_seen by reflexivity. cbn [fst snd].
      f_equal. destruct (cp =? BOM);
        rewrite ?app_comm_cons, flat_map_utf16_app; reflexivity.
Qed.

Lemma decode_nil d : decode d [] = (d, []).
Proof. unfold decode; cbn [process]. apply serialize_nil. Qed.

(** Chunk boundaries do not show: any chunking decodes as the one chunk
    made of all the bytes. *)
Theorem decode_chunks_concat d chunks :
  decode_chunks d chunks = decode d (concat chunks).
Proof.
  revert d; induction chunks as [|c rest IH]; intros d.
  - cbn [decode_chunks concat]. rewrite decode_nil. reflexivity.
  - cbn [decode_chunks concat]. rewrite decode_app.
    destruct (decode d c) as [d1 s1]; cbn [fst snd].
    rewrite IH. destruct (decode d1 (concat rest)); reflexivity.
Qed.

End TextDecoderFacts.

(** ** UTF-8: what the encoder writes, the decoder reads back *)

Module Utf8Facts.
Import TextDecoder.

Lemma land_shifted_low a x n :
  0 <= n -> 0 <= x < 2 ^ n -> Z.land (a * 2 ^ n) x = 0.
Proof.
  intros Hn Hx. apply Z.bits_inj'. intros i Hi.
  rewrite Z.land_spec, Z.bits_0.
  destruct (Z.ltb_spec i n) as [Hlt|Hge].
  - rewrite Z.mul_pow2_bits_low by assumption. reflexivity.
  - rewrite <- (Z.mod_small x (2 ^ n)) by assumption.
    rewrite Z.mod_pow2_bits_high by lia. apply andb_false_r.
Qed.

Lemma lor_shifted a x n :
  0 <= n -> 0 <= x < 2 ^ n -> Z.lor (a * 2 ^ n) x = a * 2 ^ n + x.
Proof.
  intros Hn Hx. pose proof (Z.add_lor_land (a * 2 ^ n) x) as H.
  rewrite land_shifted_low in H by assumption. lia.
Qed.

Lemma low6 x : Z.land x 0x3F = x mod 64.
Proof. change 0x3F with (Z.ones 6). rewrite Z.land_ones by lia. reflexivity. Qed.

Lemma continuation x : 0 <= x < 64 -> Z.lor 0x80 x = 0x80 + x.
Proof. intros H. apply (lor_shifted 2 x 6); [lia|exact H]. Qed.

Lemma push6 a x : 0 <= x < 64 -> Z.lor (Z.shiftl a 6) x = a * 64 + x.
Proof.
  intros H. rewrite Z.shiftl_mul_pow2 by lia. apply (lor_shifted a x 6); [lia|exact H].
Qed.

Lemma cont_byte x : Z.lor 0x80 (Z.land x 0x3F) = 0x80 + x mod 64.
Proof. rewrite low6. apply continuation. apply Z.mod_pos_bound. lia. Qed.

Lemma cont_payload x : Z.land (0x80 + x mod 64) 0x3F = x mod 64.
Proof.
  rewrite low6. replace (0x80 + x mod 64) with (x mod 64 + 2 * 64) by lia.
  rewrite Z.mod_add by lia. apply Z.mod_mod. lia.
Qed.

Lemma process_cons d b r :
  process d (b :: r)
  = (fst (process (fst (handler d b)) r),
     snd (handler d b) ++ snd (process (fst (handler d b)) r)).
Proof.
  cbn [process]. destruct (handler d b) as [d1 o1]; cbn [fst snd].
  destruct (process d1 r); reflexivity.
Qed.

Lemma in_range_true lo hi b : lo <= b <= hi -> in_range lo hi b = true.
Proof. intros H. unfold in_range. apply andb_true_intro; split; apply Z.leb_le; lia. Qed.

Lemma in_range_false lo hi b : b < lo \/ hi < b -> in_range lo hi b = false.
Proof.
  intros H. unfold in_range. apply andb_false_iff.
  destruct H; [left|right]; apply Z.leb_gt; lia.
Qed.

Lemma step_ascii d b :
  bytes_needed d = 0 -> 0 <= b <= 0x7F -> handler d b = (d, [b]).
Proof.
  intros Hd Hb. unfold handler. rewrite Hd. cbn [Z.eqb].
  unfold lead. rewrite in_range_true by lia. reflexivity.
Qed.

Lemma step_lead2 d b :
  bytes_needed d = 0 -> 0xC2 <= b <= 0xDF ->
  handler d b
  = ({| code_point := b mod 32; bytes_seen := 0; bytes_needed := 1;
        lower_boundary := 0x80; upper_boundary := 0xBF;
        bom_seen := bom_seen d |}, []).
Proof.
  intros Hd Hb. unfold handler. rewrite Hd. cbn [Z.eqb].
  unfold lead. rewrite in_range_false, in_range_true by lia.
  change 0x1F with (Z.ones 5). rewrite Z.land_ones by lia. reflexivity.
Qed.

Lemma step_lead3 d b :
  bytes_needed d = 0 -> 0xE0 <= b <= 0xEF ->
  handler d b
  = ({| code_point := b mod 16; bytes_seen := 0; bytes_needed := 2;
        lower_boundary := if b =? 0xE0 then 0xA0 else 0x80;
        upper_boundary := if b =? 0xED then 0x9F else 0xBF;
        bom_seen := bom_seen d |}, []).
Proof.
  intros Hd Hb. unfold handler. rewrite Hd. cbn [Z.eqb].
  unfold lead. rewrite !in_range_false, in_range_true by lia.
  change 0xF with (Z.ones 4). rewrite Z.land_ones by lia. reflexivity.
Qed.

Lemma step_lead4 d b :
  bytes_needed d = 0 -> 0xF0 <= b <= 0xF4 ->
  handler d b
  = ({| code_point := b mod 8; bytes_seen := 0; bytes_needed := 3;
        lower_boundary := if b =? 0xF0 then 0x90 else 0x80;
        upper_boundary := if b =? 0xF4 then 0x8F else 0xBF;
        bom_seen := bom_seen d |}, []).
Proof.
  intros Hd Hb. unfold handler. rewrite Hd. cbn [Z.eqb].
  unfold lead. rewrite !in_range_false, in_range_true by lia.
  change 0x7 with (Z.ones 3). rewrite Z.land_ones by lia. reflexivity.
Qed.

Ltac fields :=
  cbn [fst snd app bytes_needed lower_boundary upper_boundary bytes_seen
       code_point bom_seen cleared].

Lemma step_cont d x :
  bytes_needed d <> 0 ->
  lower_boundary d <= 0x80 + x mod 64 <= upper_boundary d ->
  bytes_seen d + 1 <> bytes_needed d ->
  handler d (0x80 + x mod 64)
  = ({| code_point := code_point d * 64 + x mod 64;
        bytes_seen := bytes_seen d + 1; bytes_needed := bytes_needed d;
        lower_boundary := 0x80; upper_boundary := 0xBF;
        bom_seen := bom_seen d |}, []).
Proof.
  intros Hn Hr Hs. unfold handler.
  destruct (Z.eqb_spec (bytes_needed d) 0) as [?|_]; [contradiction|].
  rewrite in_range_true by exact Hr.
  cbn [andb negb]. rewrite cont_payload.
  rewrite push6 by (apply Z.mod_pos_bound; lia).
  destruct (Z.eqb_spec (bytes_seen d + 1) (bytes_needed d)); [contradiction|].
  reflexivity.
Qed.

Lemma step_last d x :
  bytes_needed d <> 0 ->
  lower_boundary d <= 0x80 + x mod 64 <= upper_boundary d ->
  bytes_seen d + 1 = bytes_needed d ->
  handler d (0x80 + x mod 64) = (cleared d, [code_point d * 64 + x mod 64]).
Proof.
  intros Hn Hr Hs. unfold handler.
  destruct (Z.eqb_spec (bytes_needed d) 0) as [?|_]; [contradiction|].
  rewrite in_range_true by exact Hr.
  cbn [andb negb]. rewrite cont_payload.
  rewrite push6 by (apply Z.mod_pos_bound; lia).
  destruct (Z.eqb_spec (bytes_seen d + 1) (bytes_needed d)); [|contradiction].
  reflexivity.
Qed.

Lemma process_encode d cp :
  scalar_value cp -> bytes_needed d = 0 ->
  snd (process d (utf8_encode cp)) = [cp]
  /\ bytes_needed (fst (process d (utf8_encode cp))) = 0.
Proof.
  intros Hcp Hd. unfold utf8_encode.
  destruct (Z.leb_spec cp 0x7F) as [H1|H1].
  { rewrite process_cons, step_ascii by (destruct Hcp; lia). cbn. auto. }
  rewrite !cont_byte, !Z.shiftr_div_pow2 by lia.
  change (2 ^ 6) with 64; change (2 ^ 12) with 4096; change (2 ^ 18) with 262144.
  destruct (Z.leb_spec cp 0x7FF) as [H2|H2].
  { rewrite process_cons.
    rewrite step_lead2 by (try assumption; Z.div_mod_to_equations; lia). fields.
    rewrite process_cons.
    rewrite step_last by (fields; Z.div_mod_to_equations; lia). fields.
    cbn [process]. fields.
    split; [|reflexivity]. f_equal. Z.div_mod_to_equations; lia. }
  destruct (Z.leb_spec cp 0xFFFF) as [H3|H3].
  { rewrite process_cons.
    rewrite step_lead3 by (try assumption; Z.div_mod_to_equations; lia). fields.
    rewrite process_cons.
    rewrite step_cont.
    2: fields; lia.
    2: { fields. destruct (Z.eqb_spec (cp / 4096 + 224) 224);
         destruct (Z.eqb_spec (cp / 4096 + 224) 237);
         destruct Hcp; Z.div_mod_to_equations; lia. }
    2: fields; lia.
    fields.
    rewrite process_cons.
    rewrite step_last by (fields; Z.div_mod_to_equations; lia). fields.
    cbn [process]. fields.
    split; [|reflexivity]. f_equal. Z.div_mod_to_equations; lia. }
  assert (cp <= 0x10FFFF) by (destruct Hcp; lia).
  rewrite process_cons.
  rewrite step_lead4 by (try assumption; Z.div_mod_to_equations; lia). fields.
  rewrite process_cons.
  rewrite step_cont.
  2: fields; lia.
  2: { fields. destruct (Z.eqb_spec (cp / 262144 + 240) 240);
       destruct (Z.eqb_spec (cp / 262144 + 240) 244);
       Z.div_mod_to_equations; lia. }
  2: fields; lia.
  fields.
  rewrite process_cons.
  rewrite step_cont by (fields; Z.div_mod_to_equations; lia). fields.
  rewrite process_cons.
  rewrite step_last by (fields; Z.div_mod_to_equations; lia). fields.
  cbn [process]. fields.
  split; [|reflexivity]. f_equal. Z.div_mod_to_equations; lia.
Qed.

(** The bytes of a scalar value, met at a character boundary, decode to
    that scalar value, however the read boundaries cut them; the one
    exception is a byte order mark that is the first code point of the
    stream. *)
Lemma decode_encode d cp :
  scalar_value cp -> bytes_needed d = 0 ->
  bom_seen d = true \/ cp <> BOM ->
  snd (decode d (utf8_encode cp)) = utf16 cp
  /\ bytes_needed (fst (decode d (utf8_encode cp))) = 0
  /\ bom_seen (fst (decode d (utf8_encode cp))) = true.
Proof.
  intros Hcp Hd Hbom. unfold decode.
  destruct (process_encode d cp Hcp Hd) as [Hout Hn].
  pose proof (TextDecoderFacts.process_bom_seen d (utf8_encode cp)) as Hb.
  destruct (process d (utf8_encode cp)) as [d1 out]; cbn [fst snd] in *.
  subst out. unfold serialize. rewrite Hb.
  destruct (bom_seen d) eqn:Hseen.
  - cbn [fst snd flat_map]. rewrite app_nil_r. auto.
  - destruct Hbom as [?|Hne]; [discriminate|].
    destruct (Z.eqb_spec cp BOM) as [?|_]; [contradiction|].
    cbn [fst snd flat_map set_bom bytes_needed bom_seen].
    rewrite app_nil_r. auto.
Qed.

Lemma process_encoded_text d text :
  Forall scalar_value text -> bytes_needed d = 0 ->
  snd (process d (flat_map utf8_encode text)) = text
  /\ bytes_needed (fst (process d (flat_map utf8_encode text))) = 0.
Proof.
  intros Htext. revert d. induction Htext as [|cp text Hcp _ IH]; intros d Hd.
  - cbn. auto.
  - cbn [flat_map]. rewrite TextDecoderFacts.process_app.
    destruct (process_encode d cp Hcp Hd) as [Hout Hn]. cbn [fst snd].
    destruct (IH _ Hn) as [Hrest Hn']. rewrite Hout, Hrest. auto.
Qed.

(** A well-formed text sent as UTF-8 decodes to itself, less the byte order
    mark it may begin with. *)
Theorem decode_encoded_text text :
  Forall scalar_value text ->
  snd (decode new (flat_map utf8_encode text))
  = flat_map utf16
      match text with
      | [] => []
      | cp :: rest => if cp =? BOM then rest else text
      end.
Proof.
  intros Htext. unfold decode.
  destruct (process_encoded_text new text Htext eq_refl) as [Hout _].
  pose proof (TextDecoderFacts.process_bom_seen new (flat_map utf8_encode text)) as Hb.
  destruct (process new (flat_map utf8_encode text)) as [d out].
  cbn [fst snd] in *. subst out. unfold serialize. rewrite Hb. cbn [bom_seen new].
  destruct text as [|cp rest]; reflexivity.
Qed.

End Utf8Facts.

(** ** The handlers on the message list *)

Section Arrays.
Context {A : Type}.

(** The index [handleSubmit] writes at is below the length. *)
Lemma last_index_lt_length (arr : list A) :
  Z.of_nat (length arr) - 1 < Z.of_nat (length arr).
Proof. lia. Qed.

(** On an empty array the write at [length - 1 = -1] adds no element. *)
Lemma array_set_last_nil (v : A) : array_set [] (Z.of_nat (@length A []) - 1) v = [].
Proof. reflexivity. Qed.

(** On a non-empty array it replaces the last element. *)
Lemma array_set_last_snoc (pre : list A) (m v : A) :
  array_set (pre ++ [m]) (Z.of_nat (length (pre ++ [m])) - 1) v = pre ++ [v].
Proof.
  unfold array_set. rewrite length_app. cbn [length].
  destruct (Z.ltb_spec (Z.of_nat (length pre + 1) - 1) 0) as [H|_]; [lia|].
  replace (Z.to_nat (Z.of_nat (length pre + 1) - 1)) with (length pre + 0)%nat by lia.
  rewrite insert_app_r. reflexivity.
Qed.
End Arrays.

Lemma last_two {A} (l : list A) (a b : A) : last (l ++ [a; b]) = Some b.
Proof.
  change [a; b] with ([a] ++ [b]). rewrite app_assoc. apply last_snoc.
Qed.

Lemma perform_app s a b : perform s (a ++ b) = perform (perform s a) b.
Proof. apply fold_left_app. Qed.

Lemma filter_not_empty_app (l1 l2 : list Message) :
  List.filter (fun msg => not_empty (content msg)) (l1 ++ l2)
  = List.filter (fun msg => not_empty (content msg)) l1
    ++ List.filter (fun msg => not_empty (content msg)) l2.
Proof. apply List.filter_app. Qed.

(** A string that is not empty after trimming is not empty. *)
Lemma truthy_trim s : truthy (trim s) = true -> truthy s = true.
Proof. destruct s; [discriminate | reflexivity]. Qed.

Lemma validation_user_message env s :
  validation env s = None -> truthy (trim (userMessage s)) = true.
Proof.
  unfold validation.
  destruct (match page env with ClientKey => _ | RelayKey => _ end); [discriminate|].
  destruct (truthy (trim (userMessage s))); [reflexivity | discriminate].
Qed.

(** The texts of the increments add up to the text of the run. *)
Lemma concat_increment_texts d chunks :
  concat (increment_texts d chunks) = snd (TextDecoder.decode_chunks d chunks).
Proof.
  revert d; induction chunks as [|c rest IH]; intros d; [reflexivity|].
  cbn [increment_texts TextDecoder.decode_chunks].
  destruct (TextDecoder.decode d c) as [d1 s1]. cbn [concat].
  rewrite IH. destruct (TextDecoder.decode_chunks d1 rest); reflexivity.
Qed.

(** The read loop over increments only: the last turn is rewritten with the
    text so far, nothing else changes, and the loop is still reading. *)
Lemma read_loop_values s t chunks rest pre :
  messages s = pre ++ [assistant_turn (assistantMessage t)] ->
  exists t',
    read_loop s t (map ReadValue chunks ++ rest)
    = read_loop (with_messages s
                   (pre ++ [assistant_turn
                              (assistantMessage t
                               ++ snd (TextDecoder.decode_chunks (decoder t) chunks))]))
                t' rest
    /\ assistantMessage t'
       = assistantMessage t ++ snd (TextDecoder.decode_chunks (decoder t) chunks)
    /\ decoder t' = fst (TextDecoder.decode_chunks (decoder t) chunks).
Proof.
  revert s t; induction chunks as [|c more IH]; intros s t Hm.
  - exists t. cbn [map app TextDecoder.decode_chunks fst snd].
    rewrite app_nil_r, <- Hm. destruct s; auto.
  - cbn [map app read_loop after_read].
    destruct (TextDecoder.decode (decoder t) c) as [d1 s1] eqn:Hc.
    set (t1 := {| phase := AwaitRead; assistantMessage := assistantMessage t ++ s1;
                  decoder := d1 |}).
    destruct (IH (perform s [SetMessages (ReplaceLast (assistant_turn (assistantMessage t ++ s1)))]) t1)
      as (t' & Hrun & Hmsg & Hdec).
    { cbn. rewrite Hm. apply array_set_last_snoc. }
    exists t'. rewrite Hrun. cbn [TextDecoder.decode_chunks]. rewrite Hc.
    subst t1; cbn [assistantMessage decoder] in *.
    destruct (TextDecoder.decode_chunks d1 more) as [d2 s2]; cbn [fst snd] in *.
    rewrite <- app_assoc in *. auto.
Qed.

(** ** A submission that streams *)

(** A submission that passed the validations and got a successful response
    with a body is suspended at its first read, with the user turn and the
    empty placeholder at the end of the list. *)
Lemma submission_streaming env s status :
  validation env s = None -> ok status = true ->
  forall reads,
    submission env s (Response status true) reads
    = read_loop
        (perform (perform s (fst (handleSubmit env s)))
           [SetMessages (Append (assistant_turn []))])
        {| phase := AwaitRead; assistantMessage := [];
           decoder := TextDecoder.new |}
        reads
    /\ messages (perform (perform s (fst (handleSubmit env s)))
                   [SetMessages (Append (assistant_turn []))])
       = (messages s ++ [user_turn s]) ++ [assistant_turn []].
Proof.
  intros Hv Hok reads. unfold submission, handleSubmit, after_fetch.
  rewrite Hv, Hok. cbn [negb fst]. split; reflexivity.
Qed.

(** The run of increments of a streaming submission, up to what follows. *)
Lemma submission_values env s status chunks rest :
  validation env s = None -> ok status = true ->
  exists s1 t1,
    submission env s (Response status true) (map ReadValue chunks ++ rest)
    = read_loop s1 t1 rest
    /\ messages s1
       = (messages s ++ [user_turn s])
         ++ [assistant_turn (concat (increment_texts TextDecoder.new chunks))]
    /\ assistantMessage t1 = concat (increment_texts TextDecoder.new chunks)
    /\ decoder t1 = fst (TextDecoder.decode_chunks TextDecoder.new chunks)
    /\ userMessage s1 = userMessage s.
Proof.
  intros Hv Hok.
  destruct (submission_streaming env s status Hv Hok (map ReadValue chunks ++ rest))
    as [Hrun Hmsg].
  rewrite Hrun.
  destruct (read_loop_values _
              {| phase := AwaitRead; assistantMessage := [];
                 decoder := TextDecoder.new |}
              chunks rest _ Hmsg) as (t' & Hloop & Ht' & Hd').
  rewrite Hloop. rewrite concat_increment_texts.
  cbn [assistantMessage decoder app] in *.
  eexists _, t'. split; [reflexivity|].
  cbn [with_messages messages userMessage]. repeat split; try assumption.
  unfold handleSubmit. rewrite Hv. reflexivity.
Qed.



(** A read loop that is still suspended has been fed increments only. *)
Lemma read_loop_pending s t reads s' t' :
  read_loop s t reads = (s', Some t') ->
  exists chunks, reads = map ReadValue chunks.
Proof.
  revert s t; induction reads as [|r rest IH]; intros s t H.
  - exists []. reflexivity.
  - cbn [read_loop] in H. destruct r as [value| |err]; cbn [after_read] in H.
    + destruct (TextDecoder.decode (decoder t) value) as [d chunk].
      apply IH in H. destruct H as [chunks ->].
      exists (value :: chunks). reflexivity.
    + discriminate.
    + discriminate.
Qed.

(** A submission that is suspended at a read got a successful response with
    a body. *)
Lemma submission_pending env s f reads s' t' :
  submission env s f reads = (s', Some t') ->
  validation env s = None
  /\ exists status, f = Response status true /\ ok status = true.
Proof.
  unfold submission, handleSubmit.
  destruct (validation env s); [discriminate|]. intros H. split; [reflexivity|].
  destruct f as [err|status has_body]; cbn [after_fetch] in H; [discriminate|].
  destruct (ok status) eqn:Hok; cbn [negb] in H; [|discriminate].
  destruct has_body; cbn [negb] in H; [|discriminate].
  exists status. auto.
Qed.

(** C7 (amended): a submission whose response comes with a successful
    status and a body appends the empty placeholder when that response is in,
    right after the user turn and before anything is read; at every read of
    any submission the list ends with the user turn followed by the assistant
    turn that holds the text so far, so each increment has its target.  A
    submission whose request fails, or whose response has another status or
    no body, appends no placeholder and never reads. *)
Theorem placeholder_before_increments env s :
  validation env s = None ->
  (forall status, ok status = true ->
     exists s0 t0,
       submission env s (Response status true) [] = (s0, Some t0)
       /\ messages s0 = messages s ++ [user_turn s; assistant_turn []]
       /\ assistantMessage t0 = []
       /\ appended (fst (after_fetch (Response status true))) = [assistant_turn []])
  /\ (forall f reads s' t',
        submission env s f reads = (s', Some t') ->
        messages s' = messages s ++ [user_turn s; assistant_turn (assistantMessage t')])
  /\ (forall f,
        (forall status, ok status = true -> f <> Response status true) ->
        appended (fst (handleSubmit env s) ++ fst (after_fetch f)) = [user_turn s]
        /\ forall reads,
             submission env s f reads = submission env s f []
             /\ snd (submission env s f reads) = None).
Proof.
  intros Hv. split; [|split].
  - intros status Hok.
    destruct (submission_streaming env s status Hv Hok []) as [Hrun Hmsg].
    rewrite Hrun. cbn [read_loop]. eexists _, _. split; [reflexivity|].
    rewrite Hmsg, <- app_assoc. unfold after_fetch. rewrite Hok. auto.
  - intros f reads s' t' H.
    destruct (submission_pending _ _ _ _ _ _ H) as (_ & status & -> & Hok).
    assert (Hr : exists chunks, reads = map ReadValue chunks).
    { destruct (submission_streaming env s status Hv Hok reads) as [Hrun _].
      rewrite Hrun in H. eapply read_loop_pending; exact H. }
    destruct Hr as [chunks ->].
    destruct (submission_values env s status chunks [] Hv Hok)
      as (s1 & t1 & Hrun & Hmsg & Ht1 & _).
    rewrite app_nil_r in Hrun. rewrite Hrun in H. cbn [read_loop] in H.
    injection H as <- <-. rewrite Hmsg, Ht1, <- app_assoc. reflexivity.
  - intros f Hf.
    assert (Hend : exists err, after_fetch f = (catch_block err ++ finally_block, None)).
    { destruct f as [err|status has_body]; cbn [after_fetch].
      - eexists; reflexivity.
      - destruct (ok status) eqn:Hok; cbn [negb]; [|eexists; reflexivity].
        destruct has_body; cbn [negb]; [|eexists; reflexivity].
        exfalso. exact (Hf status Hok eq_refl). }
    destruct Hend as [err Hend]. unfold submission, handleSubmit.
    rewrite Hv, Hend. cbn [fst snd]. repeat split.
Qed.

Lemma placeholder_before_increments_witness :
  validation relay_page (typed "Hello") = None
  /\ exists s0 t0,
       submission relay_page (typed "Hello") (Response 200 true) [] = (s0, Some t0)
       /\ messages s0 = [user_turn (typed "Hello"); assistant_turn []].
Proof.
  split; [reflexivity|].
  destruct (proj1 (placeholder_before_increments relay_page (typed "Hello") eq_refl)
              200%N eq_refl) as (s0 & t0 & Hrun & Hmsg & _).
  exists s0, t0. split; [exact Hrun | exact Hmsg].
Defined.

(** C7 as stated fails: the placeholder is not appended with the user turn
    but when a successful response is in.  While the response is awaited the
    list ends with the user turn, and a submission answered with status 500
    appends the user turn and nothing else, whatever follows. *)
Lemma failed_response_appends_no_placeholder :
  validation relay_page (typed "Hello") = None
  /\ messages (perform (typed "Hello") (fst (handleSubmit relay_page (typed "Hello"))))
     = [user_turn (typed "Hello")]
  /\ appended (fst (handleSubmit relay_page (typed "Hello"))
               ++ fst (after_fetch (Response 500 true)))
     = [user_turn (typed "Hello")]
  /\ submission relay_page (typed "Hello") (Response 500 true) [ReadValue [0x48]]
     = (with_messages
          (perform (typed "Hello") [SetError (lit "API error: 500")])
          [user_turn (typed "Hello")],
        None)
  /\ assistant_turns
       (messages (fst (submission relay_page (typed "Hello") (Response 500 true)
                         [ReadValue [0x48]])))
     = [].
Proof. repeat split. Qed.

(** C3 (amended): when a read fails after the increments [chunks], the
    catch block drops the turns whose content is empty; the assistant turn
    stays with role [assistant] and exactly the text received so far as its
    content, and is dropped itself only when that text is still empty.  The error
    state is the message of the thrown [Error], or ['An error occurred'] for
    any other thrown value, and the page shows it in the error box exactly
    when it is not the empty string: with an empty message there is no
    error box. *)
Theorem read_failure_keeps_received_text env s status chunks err rest :
  validation env s = None -> ok status = true ->
  let final :=
    submission env s (Response status true)
      (map ReadValue chunks ++ ReadRejected err :: rest) in
  let text := concat (increment_texts TextDecoder.new chunks) in
  let shown :=
    match err with
    | ErrorObject message => message
    | OtherValue => lit "An error occurred"
    end in
  snd final = None
  /\ text = snd (TextDecoder.decode TextDecoder.new (concat chunks))
  /\ messages (fst final)
     = List.filter (fun msg => not_empty (content msg)) (messages s)
       ++ [ {| role := lit "user"; content := userMessage s |} ]
       ++ match text with
          | [] => []
          | _ :: _ => [ {| role := lit "assistant"; content := text |} ]
          end
  /\ (text <> [] ->
      exists m, last (messages (fst final)) = Some m
                /\ role m = lit "assistant" /\ content m = text)
  /\ error (fst final) = shown
  /\ (shown <> [] -> error_box (render env (fst final)) = Some shown)
  /\ (shown = [] -> error_box (render env (fst final)) = None)
  /\ (err = OtherValue ->
      error_box (render env (fst final)) = Some (lit "An error occurred"))
  /\ isLoading (fst final) = false.
Proof.
  intros Hv Hok final text shown.
  assert (Htext : text = snd (TextDecoder.decode TextDecoder.new (concat chunks))).
  { subst text. rewrite concat_increment_texts.
    rewrite TextDecoderFacts.decode_chunks_concat. reflexivity. }
  assert (Hfinal :
    snd final = None
    /\ messages (fst final)
       = List.filter (fun msg => not_empty (content msg)) (messages s)
         ++ [ {| role := lit "user"; content := userMessage s |} ]
         ++ match text with
            | [] => []
            | _ :: _ => [ {| role := lit "assistant"; content := text |} ]
            end
    /\ error (fst final) = shown
    /\ isLoading (fst final) = false).
  { subst final.
    destruct (submission_values env s status chunks (ReadRejected err :: rest) Hv Hok)
      as (s1 & t1 & Hrun & Hmsg & _).
    rewrite Hrun. cbn [read_loop after_read fst snd].
    split; [reflexivity|].
    unfold catch_block, finally_block. cbn [app perform fold_left apply_action
      messages error isLoading apply_updater].
    split; [|split; [destruct err|]; reflexivity].
    rewrite Hmsg, !filter_not_empty_app. fold text.
    cbn [List.filter user_turn assistant_turn content not_empty].
    pose proof (validation_user_message env s Hv) as Hu.
    apply truthy_trim in Hu. unfold not_empty. rewrite Hu.
    rewrite <- app_assoc. destruct text; reflexivity. }
  destruct Hfinal as (Hnone & Hmsg & Herr & Hload).
  assert (Hbox : error_box (render env (fst final))
                 = match shown with [] => None | _ :: _ => Some shown end).
  { cbn [render error_box]. rewrite Herr. destruct shown; reflexivity. }
  split; [exact Hnone|]. split; [exact Htext|]. split; [exact Hmsg|].
  split.
  { intros Hne. exists {| role := lit "assistant"; content := text |}.
    rewrite Hmsg. destruct text as [|u text']; [congruence|].
    rewrite app_assoc. split; [apply last_snoc | split; reflexivity]. }
  split; [exact Herr|]. split.
  { intros Hne. rewrite Hbox. destruct shown; congruence. }
  split.
  { intros He. rewrite Hbox, He. reflexivity. }
  split; [|exact Hload].
  intros He. rewrite Hbox. subst shown. rewrite He. reflexivity.
Qed.

Lemma read_failure_keeps_received_text_witness :
  validation relay_page (typed "Hello") = None /\ ok 200 = true
  /\ (let final :=
        submission relay_page (typed "Hello") (Response 200 true)
          (map ReadValue [[0x48]; [0x69]]
           ++ [ReadRejected (ErrorObject (lit "network error"))]) in
      messages (fst final)
      = [ {| role := lit "user"; content := lit "Hello" |};
          {| role := lit "assistant"; content := lit "Hi" |} ]
      /\ error (fst final) = lit "network error"
      /\ error_box (render relay_page (fst final)) = Some (lit "network error"))
  /\ error_box
       (render relay_page
          (fst (submission relay_page (typed "Hello") (Response 200 true)
                  (map ReadValue [[0x48]; [0x69]] ++ [ReadRejected OtherValue]))))
     = Some (lit "An error occurred").
Proof.
  split; [reflexivity|]. split; [reflexivity|]. split.
  - pose proof (read_failure_keeps_received_text relay_page (typed "Hello")
                  200 [[0x48]; [0x69]] (ErrorObject (lit "network error")) []
                  eq_refl eq_refl) as H.
    cbv zeta in H. destruct H as (_ & _ & Hm & _ & He & Hb & _).
    cbv zeta. split; [exact Hm|]. split; [exact He|].
    apply Hb. discriminate.
  - pose proof (read_failure_keeps_received_text relay_page (typed "Hello")
                  200 [[0x48]; [0x69]] OtherValue [] eq_refl eq_refl) as H.
    cbv zeta in H. destruct H as (_ & _ & _ & _ & _ & _ & _ & Hb & _).
    exact (Hb eq_refl).
Defined.

(** C3 as stated fails when the read fails with an [Error] whose message is
    the empty string.  The text received so far stays, but the error state
    is the empty string and the page renders no error box: nothing is
    surfaced. *)
Lemma read_failure_with_empty_message_shows_no_error :
  let final :=
    submission relay_page (typed "Hello") (Response 200 true)
      [ReadValue [0x48; 0x69]; ReadRejected (ErrorObject [])] in
  validation relay_page (typed "Hello") = None
  /\ snd final = None
  /\ messages (fst final)
     = [ {| role := lit "user"; content := lit "Hello" |};
         {| role := lit "assistant"; content := lit "Hi" |} ]
  /\ error (fst final) = []
  /\ error_box (render relay_page (fst final)) = None
  /\ isLoading (fst final) = false.
Proof. cbv zeta. repeat split. Qed.

(** ** Submissions that fail *)

Lemma assistant_turns_app l1 l2 :
  assistant_turns (l1 ++ l2) = assistant_turns l1 ++ assistant_turns l2.
Proof. apply List.filter_app. Qed.

Lemma filter_filter_nil {A} (p q : A -> bool) (l : list A) :
  List.filter p l = [] -> List.filter p (List.filter q l) = [].
Proof.
  induction l as [|x l IH]; [reflexivity|]. cbn [List.filter].
  destruct (p x) eqn:Hp; [discriminate|]. intros H.
  destruct (q x); cbn [List.filter]; rewrite ?Hp; auto.
Qed.

Lemma validation_none env s :
  truthy (trim (userMessage s)) = true ->
  (page env = ClientKey -> truthy (trim (apiKey s)) = true) ->
  validation env s = None.
Proof.
  intros Hu Hk. unfold validation. rewrite Hu.
  destruct (page env); [rewrite Hk by reflexivity|]; reflexivity.
Qed.

(** C2 (amended): a response with a status outside 200-299 ends the
    submission in the catch block: the error is [API error: ] followed by
    the status code, it is the one message put on the page, the loading flag
    is back to false, and no assistant turn was appended: the conversation is
    the earlier turns whose content is not empty followed by the user turn of
    this submission, so it has no assistant turn when it had none before. *)
Theorem api_error_adds_no_assistant_turn env s status has_body reads :
  validation env s = None -> ok status = false ->
  let final := submission env s (Response status has_body) reads in
  let message := lit "API error: " ++ number_to_string status in
  let effects :=
    fst (handleSubmit env s) ++ fst (after_fetch (Response status has_body)) in
  snd final = None
  /\ error (fst final) = message
  /\ includes message (number_to_string status)
  /\ surfaced effects = [message]
  /\ appended effects = [user_turn s]
  /\ messages (fst final)
     = List.filter (fun msg => not_empty (content msg)) (messages s)
       ++ [user_turn s]
  /\ assistant_turns (messages (fst final))
     = assistant_turns
         (List.filter (fun msg => not_empty (content msg)) (messages s))
  /\ (assistant_turns (messages s) = [] ->
      assistant_turns (messages (fst final)) = [])
  /\ isLoading (fst final) = false.
Proof.
  intros Hv Hok final message effects.
  assert (Hfinal : final
    = (perform (perform s (fst (handleSubmit env s)))
         (catch_block (ErrorObject message) ++ finally_block), None)).
  { subst final. unfold submission, handleSubmit, after_fetch.
    rewrite Hv, Hok. reflexivity. }
  assert (Hmsgs : messages (fst final)
    = List.filter (fun msg => not_empty (content msg)) (messages s)
      ++ [user_turn s]).
  { rewrite Hfinal. unfold handleSubmit. rewrite Hv. cbn.
    rewrite filter_not_empty_app. cbn [List.filter user_turn content].
    pose proof (validation_user_message env s Hv) as Hu.
    apply truthy_trim in Hu. unfold not_empty. rewrite Hu. reflexivity. }
  assert (Hturns : assistant_turns (messages (fst final)) =
    assistant_turns (List.filter (fun msg => not_empty (content msg)) (messages s))).
  { rewrite Hmsgs, assistant_turns_app. cbn. apply app_nil_r. }
  split; [rewrite Hfinal; reflexivity|].
  split; [rewrite Hfinal; reflexivity|].
  split; [exists (lit "API error: "), []; rewrite app_nil_r; reflexivity|].
  split.
  { subst effects. unfold handleSubmit, after_fetch. rewrite Hv, Hok. cbn.
    reflexivity. }
  split.
  { subst effects. unfold handleSubmit, after_fetch. rewrite Hv, Hok. reflexivity. }
  split; [exact Hmsgs|]. split; [exact Hturns|]. split.
  { intros Hnone. rewrite Hturns. apply filter_filter_nil. exact Hnone. }
  rewrite Hfinal. reflexivity.
Qed.

Lemma api_error_adds_no_assistant_turn_witness :
  validation relay_page (typed "Hello") = None /\ ok 500 = false
  /\ error (fst (submission relay_page (typed "Hello") (Response 500 false) []))
     = lit "API error: 500"
  /\ messages (fst (submission relay_page (typed "Hello") (Response 500 false) []))
     = [user_turn (typed "Hello")].
Proof.
  split; [reflexivity|]. split; [reflexivity|].
  pose proof (api_error_adds_no_assistant_turn relay_page (typed "Hello") 500 false []
                eq_refl eq_refl) as H.
  cbv zeta in H. destruct H as (_ & He & _ & _ & _ & Hm & _).
  split; [exact He | exact Hm].
Defined.

(** C2 as stated fails: in a conversation that already holds an answer, a
    submission answered with status 500 leaves the conversation with that
    assistant turn, not with zero assistant turns. *)
Lemma api_error_keeps_earlier_answers :
  option_map (fun c => (messages (state c), error (state c)))
    (run relay_page initial
       (second_question ++ [Submit; FetchSettles 0 (Response 500 false)]))
  = Some ([ {| role := lit "user"; content := lit "Hello" |};
            {| role := lit "assistant"; content := lit "Hi" |};
            {| role := lit "user"; content := lit "And then?" |} ],
          lit "API error: 500").
Proof. reflexivity. Qed.

(** ** From the submit to the [fetch] *)

(** C8 (amended): when the message is not empty after trimming and, on the
    page that asks for an API key, the key is not empty after trimming
    either, the handler's effects up to its first await are: clear the
    error, set the loading flag, append the user turn, call [fetch]; exactly
    one turn is appended, the user's, and it comes before the only network
    call. *)
Theorem submit_appends_user_turn_before_fetch env s :
  truthy (trim (userMessage s)) = true ->
  (page env = ClientKey -> truthy (trim (apiKey s)) = true) ->
  fst (handleSubmit env s)
  = [SetError []; SetIsLoading true; SetMessages (Append (user_turn s));
     Fetch (request env s)]
  /\ appended (fst (handleSubmit env s)) = [user_turn s]
  /\ messages (perform s (fst (handleSubmit env s))) = messages s ++ [user_turn s]
  /\ exists before after,
       fst (handleSubmit env s)
       = before ++ SetMessages (Append (user_turn s)) :: after
       /\ fetches before = [] /\ fetches after = [request env s].
Proof.
  intros Hu Hk. unfold handleSubmit. rewrite (validation_none env s Hu Hk).
  cbn [fst]. repeat split.
  exists [SetError []; SetIsLoading true], [Fetch (request env s)].
  repeat split.
Qed.

Lemma submit_appends_user_turn_before_fetch_witness :
  truthy (trim (userMessage with_key)) = true
  /\ (page client_page = ClientKey -> truthy (trim (apiKey with_key)) = true)
  /\ messages (perform with_key (fst (handleSubmit client_page with_key)))
     = [user_turn with_key].
Proof.
  split; [reflexivity|]. split; [reflexivity|].
  destruct (submit_appends_user_turn_before_fetch client_page with_key)
    as (_ & _ & H & _); [reflexivity | reflexivity | exact H].
Defined.

(** C8 as stated fails on the page that asks for an API key: with a message
    typed and the key field empty, the handler returns at the key check; it
    appends no user turn and calls nothing. *)
Lemma blank_key_appends_no_user_turn :
  truthy (trim (userMessage (typed "Hello"))) = true
  /\ handleSubmit client_page (typed "Hello")
     = ([SetError (lit "Please provide an API key")], None)
  /\ appended (fst (handleSubmit client_page (typed "Hello"))) = []
  /\ messages (perform (typed "Hello") (fst (handleSubmit client_page (typed "Hello"))))
     = messages (typed "Hello").
Proof. repeat split. Qed.

(** C9: a message that is empty after trimming is rejected at a validation:
    the only effect is one error message on the page, no [fetch] is called,
    the handler does not go on, and the turn list and the loading flag are as
    they were.  On the page without a key field the message is
    [Please enter a message]. *)
Theorem blank_message_is_rejected env s :
  truthy (trim (userMessage s)) = false ->
  exists msg,
    handleSubmit env s = ([SetError msg], None)
    /\ truthy msg = true
    /\ (msg = lit "Please enter a message" \/ msg = lit "Please provide an API key")
    /\ (page env = RelayKey -> msg = lit "Please enter a message")
    /\ fetches (fst (handleSubmit env s)) = []
    /\ surfaced (fst (handleSubmit env s)) = [msg]
    /\ error (perform s (fst (handleSubmit env s))) = msg
    /\ messages (perform s (fst (handleSubmit env s))) = messages s
    /\ isLoading (perform s (fst (handleSubmit env s))) = isLoading s.
Proof.
  intros Hu. unfold handleSubmit, validation. rewrite Hu. cbn [negb].
  destruct (page env); [destruct (truthy (trim (apiKey s)))|]; cbn [negb];
    eexists; (split; [reflexivity|]); repeat split; auto; discriminate.
Qed.

Lemma blank_message_is_rejected_witness :
  truthy (trim (userMessage (typed "   "))) = false
  /\ exists msg,
       handleSubmit relay_page (typed "   ") = ([SetError msg], None)
       /\ messages (perform (typed "   ") (fst (handleSubmit relay_page (typed "   "))))
          = [].
Proof.
  split; [reflexivity|].
  destruct (blank_message_is_rejected relay_page (typed "   ") eq_refl)
    as (msg & Hh & _ & _ & _ & _ & _ & _ & Hm & _).
  exists msg. split; [exact Hh | exact Hm].
Defined.

(** ** The recovery *)

(** C10: every path into the catch block runs the same recovery, and the
    recovery filters the whole list: the turns whose content is the empty
    string go, wherever they are and whoever wrote them, and the others stay
    as they are and in their order.  So a later submission that fails
    deletes the empty answer an earlier submission had finished with. *)
Theorem recovery_filters_the_whole_list :
  (forall s err,
     messages (perform s (catch_block err ++ finally_block))
     = List.filter (fun msg => not_empty (content msg)) (messages s))
  /\ (forall err, fst (after_fetch (FetchRejected err)) = catch_block err ++ finally_block)
  /\ (forall status has_body,
        ok status = false ->
        exists err,
          fst (after_fetch (Response status has_body)) = catch_block err ++ finally_block)
  /\ (forall status,
        ok status = true ->
        exists err,
          fst (after_fetch (Response status false)) = catch_block err ++ finally_block)
  /\ (forall t err,
        fst (after_read t (ReadRejected err)) = catch_block err ++ finally_block)
  /\ (forall s err m,
        In m (messages (perform s (catch_block err ++ finally_block)))
        <-> In m (messages s) /\ content m <> [])
  /\ option_map (fun c => (messages (state c), tasks c))
       (run relay_page initial after_empty_answer)
     = Some ([ {| role := lit "user"; content := lit "Hello" |};
               {| role := lit "assistant"; content := [] |} ], [])
  /\ option_map (fun c => messages (state c))
       (run relay_page initial
          (after_empty_answer ++ [Submit; FetchSettles 0 (Response 500 false)]))
     = Some [ {| role := lit "user"; content := lit "Hello" |};
              {| role := lit "user"; content := lit "And then?" |} ].
Proof.
  split; [reflexivity|]. split; [reflexivity|]. split.
  { intros status has_body Hok. unfold after_fetch. rewrite Hok.
    eexists; reflexivity. }
  split.
  { intros status Hok. unfold after_fetch. rewrite Hok. eexists; reflexivity. }
  split; [reflexivity|]. split; [|split; reflexivity].
  intros s err m. cbn. rewrite List.filter_In.
  destruct (content m); cbn; intuition congruence.
Qed.

Lemma recovery_filters_the_whole_list_witness :
  ok 500 = false
  /\ exists err,
       fst (after_fetch (Response 500 false)) = catch_block err ++ finally_block.
Proof.
  split; [reflexivity|].
  exact (proj1 (proj2 (proj2 recovery_filters_the_whole_list)) 500%N false eq_refl).
Defined.

(** ** Characters cut by a read boundary *)

(** A decoder made anew for each read would turn the cut character into
    replacement characters. *)
Lemma stateless_decoding_garbles :
  TextDecoder.decode_stateless [0xE2] ++ TextDecoder.decode_stateless [0x82; 0xAC]
  = [0xFFFD; 0xFFFD]
  /\ snd (TextDecoder.decode_chunks TextDecoder.new [[0xE2]; [0x82; 0xAC]]) = [0x20AC].
Proof. split; reflexivity. Qed.

(** ** The page as a whole: what every reachable state satisfies *)

(** [handleSubmit] itself never looks at [isLoading]: that one submission
    runs at a time is the doing of the disabled form. *)
Lemma handleSubmit_ignores_isLoading env s b :
  handleSubmit env (perform s [SetIsLoading b]) = handleSubmit env s.
Proof.
  unfold handleSubmit.
  change (validation env (perform s [SetIsLoading b])) with (validation env s).
  destruct (validation env s); reflexivity.
Qed.

Lemma invariant_initial : invariant initial.
Proof. reflexivity. Qed.

Lemma invariant_step env c e c' :
  invariant c -> step env c e = Some c' -> invariant c'.
Proof.
  destruct c as [s ts]. unfold invariant. cbn [tasks state].
  destruct ts as [|t [|t2 ts]]; [| |contradiction].
  - (* nothing is running *)
    intros Hl. destruct e; cbn [step state tasks]; rewrite ?Hl.
    + destruct (page env); [|discriminate]. intros [= <-]. exact Hl.
    + intros [= <-]. exact Hl.
    + intros [= <-]. exact Hl.
    + intros [= <-]. exact Hl.
    + unfold handleSubmit. destruct (validation env s).
      * intros [= <-]. exact Hl.
      * intros [= <-]. cbn. split; [reflexivity | discriminate].
    + destruct (messages s); [discriminate|]. intros [= <-]. exact Hl.
    + rewrite lookup_nil. discriminate.
    + rewrite lookup_nil. discriminate.
  - (* one submission is running *)
    intros [Hl Hm]. destruct e; cbn [step state tasks]; rewrite ?Hl.
    + destruct (page env); [|discriminate]. intros [= <-]. cbn. auto.
    + intros [= <-]. cbn. auto.
    + discriminate.
    + intros [= <-]. cbn. auto.
    + discriminate.
    + destruct (messages s); [discriminate|]. intros [= <-]. cbn. auto.
    + destruct i as [|i]; [|discriminate]. cbn [lookup list_lookup].
      destruct (phase t) eqn:Hp; [|discriminate].
      unfold resume. cbn [state tasks].
      destruct r as [err|status has_body]; cbn [after_fetch].
      * intros [= <-]. reflexivity.
      * destruct (ok status); cbn [negb]; [|intros [= <-]; reflexivity].
        destruct has_body; cbn [negb]; [|intros [= <-]; reflexivity].
        intros [= <-]. cbn. split; [exact Hl|]. intros _. right.
        exists (messages s). reflexivity.
    + destruct i as [|i]; [|discriminate]. cbn [lookup list_lookup].
      destruct (phase t) eqn:Hp; [discriminate|].
      unfold resume. cbn [state tasks].
      destruct r as [value| |err]; cbn [after_read].
      * destruct (TextDecoder.decode (decoder t) value) as [d chunk].
        intros [= <-]. cbn. split; [exact Hl|]. intros _.
        destruct (Hm eq_refl) as [Hnil | [pre Hpre]].
        -- left. rewrite Hnil. reflexivity.
        -- right. exists pre. rewrite Hpre. apply array_set_last_snoc.
      * intros [= <-]. reflexivity.
      * intros [= <-]. reflexivity.
Qed.

Lemma invariant_run env evs : forall c c',
  invariant c -> run env c evs = Some c' -> invariant c'.
Proof.
  induction evs as [|e evs IH]; intros c c' Hc; cbn [run].
  - intros [= <-]. exact Hc.
  - destruct (step env c e) as [c1|] eqn:Hs; [|discriminate].
    apply IH. eapply invariant_step; eassumption.
Qed.

Lemma reachable_invariant env c : reachable env c -> invariant c.
Proof. intros [evs H]. eapply invariant_run; [apply invariant_initial | exact H]. Qed.

(** C6 (amended): in every reachable state at most one submission is
    running, and [isLoading] is true exactly while one is, from the submit to
    the end of the handler.  At most one turn is growing; it is the last
    turn of the list and it is the assistant turn that holds the text
    received so far; and while a turn is growing [isLoading] is true. *)
Theorem one_growing_turn_while_loading env c :
  reachable env c ->
  (length (tasks c) <= 1)%nat
  /\ (isLoading (state c) = true <-> tasks c <> [])
  /\ (length (growing_turns c) <= 1)%nat
  /\ (forall i, In i (growing_turns c) ->
        S i = length (messages (state c))
        /\ exists t, streaming c = [t]
             /\ messages (state c) !! i = Some (assistant_turn (assistantMessage t)))
  /\ (growing_turns c <> [] -> isLoading (state c) = true).
Proof.
  intros Hr. apply reachable_invariant in Hr.
  destruct c as [s ts]. unfold invariant, growing_turns, streaming in *.
  cbn [tasks state] in *.
  destruct ts as [|t [|t2 ts]]; [| |contradiction].
  - cbn. rewrite Hr. repeat split; try lia; try contradiction; try discriminate.
  - destruct Hr as [Hl Hm]. cbn [length List.filter].
    split; [lia|]. split; [split; [discriminate | intros _; exact Hl]|].
    destruct (phase t) eqn:Hp; cbn [flat_map app].
    + cbn. repeat split; try lia; contradiction.
    + destruct (Hm eq_refl) as [Hnil | [pre Hpre]].
      * rewrite Hnil. cbn. repeat split; try lia; contradiction.
      * rewrite Hpre. destruct (pre ++ [assistant_turn (assistantMessage t)]) eqn:E.
        { destruct pre; discriminate. }
        rewrite <- E. clear E. rewrite app_nil_r, length_app. cbn [length].
        split; [lia|]. split; [|intros _; exact Hl].
        intros i [<-|[]]. split; [lia|]. exists t. split; [reflexivity|].
        replace (length pre + 1 - 1)%nat with (length pre + 0)%nat by lia.
        rewrite lookup_app_r by lia.
        replace (length pre + 0 - length pre)%nat with 0%nat by lia. reflexivity.
Qed.

Lemma one_growing_turn_while_loading_witness :
  reachable relay_page
    {| state := {| apiKey := []; developerMessage := []; userMessage := lit "Hello";
                   model := lit "gpt-4.1-mini";
                   messages := [ {| role := lit "user"; content := lit "Hello" |};
                                 assistant_turn (lit "H") ];
                   isLoading := true; error := [] |};
       tasks := [ {| phase := AwaitRead; assistantMessage := lit "H";
                     decoder := TextDecoder.set_bom TextDecoder.new |} ] |}
  /\ (length (growing_turns
        {| state := {| apiKey := []; developerMessage := []; userMessage := lit "Hello";
                       model := lit "gpt-4.1-mini";
                       messages := [ {| role := lit "user"; content := lit "Hello" |};
                                     assistant_turn (lit "H") ];
                       isLoading := true; error := [] |};
           tasks := [ {| phase := AwaitRead; assistantMessage := lit "H";
                         decoder := TextDecoder.set_bom TextDecoder.new |} ] |}) <= 1)%nat.
Proof.
  assert (Hr : reachable relay_page
    {| state := {| apiKey := []; developerMessage := []; userMessage := lit "Hello";
                   model := lit "gpt-4.1-mini";
                   messages := [ {| role := lit "user"; content := lit "Hello" |};
                                 assistant_turn (lit "H") ];
                   isLoading := true; error := [] |};
       tasks := [ {| phase := AwaitRead; assistantMessage := lit "H";
                     decoder := TextDecoder.set_bom TextDecoder.new |} ] |}).
  { exists mid_stream. reflexivity. }
  split; [exact Hr|].
  exact (proj1 (proj2 (proj2 (one_growing_turn_while_loading _ _ Hr)))).
Defined.

(** C6 as stated fails: between the submit and the response the loading
    flag is true and no turn is growing; the list has no assistant turn at
    all. *)
Lemma loading_without_growing_turn :
  option_map
    (fun c => (isLoading (state c), growing_turns c,
               assistant_turns (messages (state c)), length (tasks c)))
    (run relay_page initial awaiting_response)
  = Some (true, [], [], 1%nat).
Proof. reflexivity. Qed.

(** ** Clear Chat while the answer streams *)

Lemma cleared_and_streaming_step env c e c' :
  cleared_and_streaming c -> tasks c <> [] -> step env c e = Some c' ->
  cleared_and_streaming c'.
Proof.
  destruct c as [s ts]. unfold cleared_and_streaming. cbn [tasks state].
  intros [Hm Ht] Hne.
  destruct ts as [|t [|t2 ts]]; [contradiction| |contradiction].
  destruct Ht as [Hl Hp].
  destruct e; cbn [step state tasks]; rewrite ?Hl, ?Hm; try discriminate.
  - destruct (page env); [|discriminate]. intros [= <-]. cbn. auto.
  - intros [= <-]. cbn. auto.
  - intros [= <-]. cbn. auto.
  - destruct i as [|i]; [|discriminate]. cbn [lookup list_lookup].
    rewrite Hp. discriminate.
  - destruct i as [|i]; [|discriminate]. cbn [lookup list_lookup].
    rewrite Hp. unfold resume. cbn [state tasks].
    destruct r as [value| |err]; cbn [after_read].
    + destruct (TextDecoder.decode (decoder t) value) as [d chunk].
      intros [= <-]. cbn. rewrite Hm. cbn. auto.
    + intros [= <-]. cbn. auto.
    + intros [= <-]. cbn. rewrite Hm. auto.
Qed.

Lemma cleared_and_streaming_run env evs : forall c c',
  cleared_and_streaming c -> run_while_pending env c evs = Some c' ->
  cleared_and_streaming c'.
Proof.
  induction evs as [|e evs IH]; intros c c' Hc; cbn [run_while_pending].
  - intros [= <-]. exact Hc.
  - destruct (tasks c) eqn:Ht; [discriminate|].
    destruct (step env c e) as [c1|] eqn:Hs; [|discriminate].
    apply IH. eapply cleared_and_streaming_step; [exact Hc| |exact Hs].
    rewrite Ht. discriminate.
Qed.

(** On the cleared page every increment of the orphaned stream is taken in,
    and none shows. *)
Lemma cleared_and_streaming_increments env chunks : forall c,
  cleared_and_streaming c -> tasks c <> [] ->
  exists c',
    run_while_pending env c (map (fun value => ReadSettles 0 (ReadValue value)) chunks)
    = Some c'
    /\ messages (state c') = [] /\ tasks c' <> [].
Proof.
  induction chunks as [|value chunks IH]; intros c Hc Hne.
  - exists c. split; [reflexivity|]. split; [apply Hc | exact Hne].
  - destruct c as [s ts]. pose proof Hc as [Hm Ht]. cbn [tasks state] in *.
    destruct ts as [|t [|t2 ts]]; [contradiction| |contradiction].
    destruct Ht as [Hl Hp].
    cbn [map run_while_pending tasks step lookup list_lookup]. rewrite Hp.
    apply IH.
    + eapply (cleared_and_streaming_step env) with (e := ReadSettles 0 (ReadValue value));
        [exact Hc | discriminate |].
      cbn [step tasks lookup list_lookup]. rewrite Hp. reflexivity.
    + unfold resume. cbn [after_read].
      destruct (TextDecoder.decode (decoder t) value). cbn. discriminate.
Qed.

(** The reads of a stream that ends, as events of the page. *)
Lemma run_increments env chunks : forall s t,
  phase t = AwaitRead ->
  run env {| state := s; tasks := [t] |}
    (map (ReadSettles 0) (map ReadValue chunks ++ [ReadDone]))
  = Some {| state := fst (read_loop s t (map ReadValue chunks ++ [ReadDone]));
            tasks := [] |}.
Proof.
  induction chunks as [|value chunks IH]; intros s t Hp;
    cbn [map app run step state tasks lookup list_lookup read_loop];
    rewrite Hp; unfold resume; cbn [after_read].
  - reflexivity.
  - destruct (TextDecoder.decode (decoder t) value) as [d chunk].
    cbn [fst snd state tasks insert list_insert]. apply IH. reflexivity.
Qed.

(** Clear Chat while the response is awaited does not stop the submission:
    the placeholder is appended to the emptied list and the answer fills
    it. *)
Lemma answer_after_clear env c t status chunks :
  tasks c = [t] -> phase t = AwaitFetch -> ok status = true ->
  exists c',
    run env (after_clear c)
      (FetchSettles 0 (Response status true)
       :: map (ReadSettles 0) (map ReadValue chunks ++ [ReadDone]))
    = Some c'
    /\ messages (state c')
       = [ {| role := lit "assistant";
              content := snd (TextDecoder.decode TextDecoder.new (concat chunks)) |} ]
    /\ tasks c' = []
    /\ isLoading (state c') = false.
Proof.
  intros Ht Hp Hok. destruct c as [s ts]. cbn [tasks] in Ht. subst ts.
  set (reads := map (ReadSettles 0) (map ReadValue chunks ++ [ReadDone])).
  cbn [after_clear run step state tasks lookup list_lookup]. rewrite Hp.
  unfold resume. cbn [after_fetch]. rewrite Hok.
  cbn [negb fst snd state tasks insert list_insert]. subst reads.
  unfold after_clear. cbn [state tasks insert list_insert].
  rewrite run_increments by reflexivity. eexists. split; [reflexivity|].
  cbn [state tasks].
  destruct (read_loop_values
              (perform (perform s handleClearChat)
                 [SetMessages (Append (assistant_turn []))])
              {| phase := AwaitRead; assistantMessage := [];
                 decoder := TextDecoder.new |}
              chunks [ReadDone] [] eq_refl) as (t' & Hrun & _).
  rewrite Hrun. cbn [assistantMessage decoder app].
  rewrite TextDecoderFacts.decode_chunks_concat. repeat split.
Qed.

(** C5 (amended): take a reachable state in which a submission is running.
    Clear Chat leaves the turn list empty.  When the submission is reading
    the body stream, the list is still empty after whatever arrives while
    that submission runs: its increments, which are all taken in, the end or
    the failure of its stream, and what the user can do in between.  When
    the submission is still awaiting the response, it is not so: after a
    successful response whose stream delivers [chunks] and ends, the cleared
    list holds one turn, of role [assistant], whose content is the text of
    the whole answer. *)
Theorem clear_during_stream_stays_empty env c :
  reachable env c -> tasks c <> [] ->
  isLoading (state c) = true
  /\ messages (state (after_clear c)) = []
  /\ (messages (state c) <> [] -> step env c ClearChat = Some (after_clear c))
  /\ (streaming c <> [] ->
      (forall evs c',
         run_while_pending env (after_clear c) evs = Some c' ->
         messages (state c') = [])
      /\ (forall chunks, exists c',
            run_while_pending env (after_clear c)
              (map (fun value => ReadSettles 0 (ReadValue value)) chunks) = Some c'
            /\ messages (state c') = [] /\ tasks c' <> []))
  /\ (streaming c = [] ->
      forall status chunks, ok status = true ->
      exists c',
        run env (after_clear c)
          (FetchSettles 0 (Response status true)
           :: map (ReadSettles 0) (map ReadValue chunks ++ [ReadDone]))
        = Some c'
        /\ messages (state c')
           = [ {| role := lit "assistant";
                  content := snd (TextDecoder.decode TextDecoder.new (concat chunks)) |} ]
        /\ tasks c' = []
        /\ isLoading (state c') = false).
Proof.
  intros Hr Hne. apply reachable_invariant in Hr.
  assert (Hone : exists t, tasks c = [t] /\ isLoading (state c) = true).
  { unfold invariant in Hr. destruct (tasks c) as [|t [|t2 ts]];
      [contradiction| |contradiction].
    exists t. split; [reflexivity | apply Hr]. }
  destruct Hone as (t & Ht & Hl).
  split; [exact Hl|]. split; [reflexivity|]. split.
  { intros Hm. cbn [step]. destruct (messages (state c)); [contradiction|]. reflexivity. }
  split.
  - intros Hs.
    assert (Hc : cleared_and_streaming (after_clear c) /\ tasks (after_clear c) <> []).
    { destruct c as [s ts]. unfold streaming, cleared_and_streaming in *.
      cbn [tasks state after_clear] in *. subst ts.
      cbn [List.filter] in Hs. destruct (phase t); [contradiction|].
      split; [|discriminate]. cbn. auto. }
    destruct Hc as [Hc Hne']. split.
    + intros evs c' Hrun.
      eapply cleared_and_streaming_run in Hrun; [apply Hrun | exact Hc].
    + intros chunks. apply cleared_and_streaming_increments; assumption.
  - intros Hs status chunks Hok.
    apply (answer_after_clear env c t status chunks Ht); [|exact Hok].
    unfold streaming in Hs. rewrite Ht in Hs. cbn [List.filter] in Hs.
    destruct (phase t); [reflexivity | discriminate].
Qed.

Lemma clear_during_stream_stays_empty_witness :
  (reachable relay_page
     {| state := {| apiKey := []; developerMessage := []; userMessage := lit "Hello";
                    model := lit "gpt-4.1-mini";
                    messages := [ {| role := lit "user"; content := lit "Hello" |};
                                  {| role := lit "assistant"; content := lit "H" |} ];
                    isLoading := true; error := [] |};
        tasks := [ {| phase := AwaitRead; assistantMessage := lit "H";
                      decoder := TextDecoder.set_bom TextDecoder.new |} ] |}
   /\ (exists c',
         run_while_pending relay_page
           (after_clear
              {| state := {| apiKey := []; developerMessage := []; userMessage := lit "Hello";
                             model := lit "gpt-4.1-mini";
                             messages := [ {| role := lit "user"; content := lit "Hello" |};
                                           {| role := lit "assistant"; content := lit "H" |} ];
                             isLoading := true; error := [] |};
                 tasks := [ {| phase := AwaitRead; assistantMessage := lit "H";
                               decoder := TextDecoder.set_bom TextDecoder.new |} ] |})
           (map (fun value => ReadSettles 0 (ReadValue value)) [[0x69]; [0x21]])
         = Some c'
         /\ messages (state c') = [] /\ tasks c' <> []))
  /\ (reachable relay_page
        {| state := {| apiKey := []; developerMessage := []; userMessage := lit "Hello";
                       model := lit "gpt-4.1-mini";
                       messages := [ {| role := lit "user"; content := lit "Hello" |} ];
                       isLoading := true; error := [] |};
           tasks := [ {| phase := AwaitFetch; assistantMessage := [];
                         decoder := TextDecoder.new |} ] |}
      /\ exists c',
           run relay_page
             (after_clear
                {| state := {| apiKey := []; developerMessage := []; userMessage := lit "Hello";
                               model := lit "gpt-4.1-mini";
                               messages := [ {| role := lit "user"; content := lit "Hello" |} ];
                               isLoading := true; error := [] |};
                   tasks := [ {| phase := AwaitFetch; assistantMessage := [];
                                 decoder := TextDecoder.new |} ] |})
             (FetchSettles 0 (Response 200 true)
              :: map (ReadSettles 0) (map ReadValue [[0x48]; [0x69]] ++ [ReadDone]))
           = Some c'
           /\ messages (state c')
              = [ {| role := lit "assistant"; content := lit "Hi" |} ]).
Proof.
  assert (Hr : reachable relay_page
     {| state := {| apiKey := []; developerMessage := []; userMessage := lit "Hello";
                    model := lit "gpt-4.1-mini";
                    messages := [ {| role := lit "user"; content := lit "Hello" |};
                                  {| role := lit "assistant"; content := lit "H" |} ];
                    isLoading := true; error := [] |};
        tasks := [ {| phase := AwaitRead; assistantMessage := lit "H";
                      decoder := TextDecoder.set_bom TextDecoder.new |} ] |}).
  { exists mid_stream. reflexivity. }
  assert (Ha : reachable relay_page
     {| state := {| apiKey := []; developerMessage := []; userMessage := lit "Hello";
                    model := lit "gpt-4.1-mini";
                    messages := [ {| role := lit "user"; content := lit "Hello" |} ];
                    isLoading := true; error := [] |};
        tasks := [ {| phase := AwaitFetch; assistantMessage := [];
                      decoder := TextDecoder.new |} ] |}).
  { exists awaiting_response. reflexivity. }
  pose proof (clear_during_stream_stays_empty relay_page _ Hr) as Hreading.
  pose proof (clear_during_stream_stays_empty relay_page _ Ha) as Hawaiting.
  split.
  - split; [exact Hr|].
    destruct Hreading as (_ & _ & _ & Hs & _); [discriminate|].
    destruct Hs as [_ Hinc]; [discriminate|].
    exact (Hinc [[0x69]; [0x21]]).
  - split; [exact Ha|].
    destruct Hawaiting as (_ & _ & _ & _ & Hs); [discriminate|].
    destruct (Hs eq_refl 200%N [[0x48]; [0x69]] eq_refl) as (c' & Hrun & Hm & _).
    exists c'. split; [exact Hrun | exact Hm].
Defined.

(** C5 as stated fails while the response is awaited, when the submission is
    in flight and [isLoading] is set but no byte has been read yet: Clear
    Chat empties the list, the submission goes on, and the answer that then
    streams in shows in the cleared conversation. *)
Lemma cleared_conversation_gets_the_answer :
  exists c0 c1 c2,
    run relay_page initial [TypeUserMessage (lit "Hello"); Submit] = Some c0
    /\ isLoading (state c0) = true
    /\ tasks c0 <> []
    /\ step relay_page c0 ClearChat = Some c1
    /\ messages (state c1) = []
    /\ run relay_page c1
         [ FetchSettles 0 (Response 200 true);
           ReadSettles 0 (ReadValue [0x48; 0x69]);
           ReadSettles 0 ReadDone ]
       = Some c2
    /\ messages (state c2)
       = [ {| role := lit "assistant"; content := lit "Hi" |} ].
Proof.
  eexists _, _, _.
  split; [reflexivity|]. split; [reflexivity|]. split; [discriminate|].
  split; [reflexivity|]. split; [reflexivity|]. split; reflexivity.
Qed.

(** ** A submission left alone is a run of the page *)

Lemma read_loop_is_a_run env reads : forall s t c,
  phase t = AwaitRead ->
  run env {| state := s; tasks := [t] |} (map (ReadSettles 0) reads) = Some c ->
  (state c, tasks c)
  = (fst (read_loop s t reads), pending (snd (read_loop s t reads))).
Proof.
  induction reads as [|r rest IH]; intros s t c Hp.
  - cbn. intros [= <-]. reflexivity.
  - cbn [map run step tasks state lookup list_lookup read_loop]. rewrite Hp.
    unfold resume. cbn [state tasks].
    destruct (after_read t r) as [acts k] eqn:Ha. cbn [fst snd].
    destruct k as [t'|].
    + cbn. intros Hrun. apply IH in Hrun; [exact Hrun|].
      destruct r; cbn [after_read] in Ha; try discriminate.
      destruct (TextDecoder.decode (decoder t) value). injection Ha as _ <-.
      reflexivity.
    + cbn [delete list_delete fst snd pending].
      destruct rest as [|r' rest]; cbn; [intros [= <-]; reflexivity | discriminate].
Qed.

(** From a page with nothing running, the events of one submission lead to
    the state and the suspended handler that [submission] computes. *)
Theorem submission_is_a_run env s f reads c :
  isLoading s = false -> validation env s = None ->
  run env {| state := s; tasks := [] |} (script f reads) = Some c ->
  (state c, tasks c)
  = (fst (submission env s f reads), pending (snd (submission env s f reads))).
Proof.
  intros Hl Hv. unfold script, submission.
  cbn [run step state tasks]. rewrite Hl. unfold handleSubmit. rewrite Hv.
  cbn [app run step state tasks lookup list_lookup phase]. unfold resume.
  cbn [state tasks].
  destruct (after_fetch f) as [acts k] eqn:Hf. cbn [fst snd].
  destruct k as [t|].
  - cbn [insert list_insert]. apply read_loop_is_a_run.
    destruct f as [err|status has_body]; cbn [after_fetch] in Hf; [discriminate|].
    destruct (negb (ok status)); [discriminate|].
    destruct (negb has_body); [discriminate|]. injection Hf as _ <-. reflexivity.
  - cbn [delete list_delete].
    destruct reads as [|r rest]; cbn; [intros [= <-]; reflexivity | discriminate].
Qed.

Lemma submission_is_a_run_witness :
  isLoading (typed "Hello") = false /\ validation relay_page (typed "Hello") = None
  /\ option_map (fun c => (state c, tasks c))
       (run relay_page {| state := typed "Hello"; tasks := [] |}
          (script (Response 200 true) [ReadValue [0x48; 0x69]; ReadDone]))
     = Some (fst (submission relay_page (typed "Hello") (Response 200 true)
                    [ReadValue [0x48; 0x69]; ReadDone]),
             pending (snd (submission relay_page (typed "Hello") (Response 200 true)
                             [ReadValue [0x48; 0x69]; ReadDone]))).
Proof.
  split; [reflexivity|]. split; [reflexivity|].
  destruct (run relay_page {| state := typed "Hello"; tasks := [] |}
              (script (Response 200 true) [ReadValue [0x48; 0x69]; ReadDone]))
    as [c|] eqn:Hrun; [|discriminate Hrun].
  cbn [option_map]. f_equal.
  exact (submission_is_a_run relay_page (typed "Hello") (Response 200 true)
           [ReadValue [0x48; 0x69]; ReadDone] c eq_refl eq_refl Hrun).
Defined.


(** ** Filling in the other fields while a submission runs *)

Lemma same_conversation_refl c : same_conversation c c.
Proof. repeat split. Qed.

Lemma same_conversation_trans c1 c2 c3 :
  same_conversation c1 c2 -> same_conversation c2 c3 -> same_conversation c1 c3.
Proof.
  unfold same_conversation. intros (? & ? & ? & ? & ?) (? & ? & ? & ? & ?).
  repeat split; congruence.
Qed.

Lemma same_conversation_perform c1 c2 acts ts :
  same_conversation c1 c2 ->
  same_conversation {| state := perform (state c1) acts; tasks := ts |}
                    {| state := perform (state c2) acts; tasks := ts |}.
Proof.
  destruct c1 as [s1 ts1], c2 as [s2 ts2]. unfold same_conversation.
  cbn [state tasks]. revert s1 s2.
  induction acts as [|a acts IH]; intros s1 s2 (Hm & Hl & He & Hu & Hts).
  - repeat split; assumption.
  - cbn [perform fold_left]. apply IH.
    destruct a;
      cbn [apply_action messages isLoading error userMessage];
      repeat split; congruence.
Qed.

(** An event on the settings leaves the conversation as it is. *)
Lemma settings_step env c e c' :
  settings e = true -> step env c e = Some c' -> same_conversation c c'.
Proof.
  destruct e; try discriminate; intros _; cbn [step].
  - destruct (page env); [|discriminate]. intros [= <-]. repeat split.
  - intros [= <-]. repeat split.
  - intros [= <-]. repeat split.
Qed.

(** Any other event than a submit does the same to the conversation whatever
    the settings are. *)
Lemma other_step env c1 c2 e c1' :
  same_conversation c1 c2 -> settings e = false -> is_submit e = false ->
  step env c1 e = Some c1' ->
  exists c2', step env c2 e = Some c2' /\ same_conversation c1' c2'.
Proof.
  intros Hs He Hn. pose proof Hs as (Hm & Hl & _ & _ & Ht).
  destruct e; try discriminate; cbn [step].
  - rewrite <- Hl. destruct (isLoading (state c1)); [discriminate|].
    intros [= <-]. eexists; split; [reflexivity|]. repeat split; apply Hs.
  - rewrite <- Hm. destruct (messages (state c1)); [discriminate|].
    intros [= <-]. eexists; split; [reflexivity|].
    rewrite <- Ht.
    exact (same_conversation_perform c1 c2 handleClearChat (tasks c1) Hs).
  - rewrite <- Ht. destruct (tasks c1 !! i) as [t|]; [|discriminate].
    destruct (phase t); [|discriminate].
    intros [= <-]. eexists; split; [reflexivity|]. unfold resume.
    rewrite <- Ht. exact (same_conversation_perform c1 c2 _ _ Hs).
  - rewrite <- Ht. destruct (tasks c1 !! i) as [t|]; [|discriminate].
    destruct (phase t); [discriminate|].
    intros [= <-]. eexists; split; [reflexivity|]. unfold resume.
    rewrite <- Ht. exact (same_conversation_perform c1 c2 _ _ Hs).
Qed.

(** A run without a submit, and the same run with the events on the settings
    left out, end in the same conversation. *)
Theorem settings_do_not_matter env evs : forall c1 c2 c1',
  same_conversation c1 c2 ->
  forallb (fun e => negb (is_submit e)) evs = true ->
  run env c1 evs = Some c1' ->
  exists c2',
    run env c2 (List.filter (fun e => negb (settings e)) evs) = Some c2'
    /\ same_conversation c1' c2'.
Proof.
  induction evs as [|e evs IH]; intros c1 c2 c1' Hs Hn; cbn [run List.filter].
  - intros [= <-]. exists c2. split; [reflexivity | exact Hs].
  - cbn [forallb] in Hn. apply andb_true_iff in Hn as [Hne Hn].
    apply negb_true_iff in Hne.
    destruct (step env c1 e) as [c1m|] eqn:Hstep; [|discriminate]. intros Hrun.
    destruct (settings e) eqn:Hq; cbn [negb].
    + apply (IH c1m c2 c1'); [|exact Hn|exact Hrun].
      apply same_conversation_trans with c1; [|exact Hs].
      pose proof (settings_step env c1 e c1m Hq Hstep) as (? & ? & ? & ? & ?).
      repeat split; congruence.
    + destruct (other_step env c1 c2 e c1m Hs Hq Hne Hstep) as (c2m & Hstep2 & Hs').
      cbn [run]. rewrite Hstep2. apply (IH c1m c2m c1'); assumption.
Qed.

(** X15: the answer streams into the conversation whatever is typed into
    the settings meanwhile: a run made of one submission's events and of
    events on the settings after the submit ends with the messages, the
    error, the loading flag and the suspended handler that [submission]
    computes. *)
Corollary submission_with_settings_typed env s f reads evs c :
  isLoading s = false -> validation env s = None ->
  forallb (fun e => negb (is_submit e)) evs = true ->
  List.filter (fun e => negb (settings e)) evs
  = FetchSettles 0 f :: map (ReadSettles 0) reads ->
  run env {| state := s; tasks := [] |} (Submit :: evs) = Some c ->
  messages (state c) = messages (fst (submission env s f reads))
  /\ error (state c) = error (fst (submission env s f reads))
  /\ isLoading (state c) = isLoading (fst (submission env s f reads))
  /\ tasks c = pending (snd (submission env s f reads)).
Proof.
  intros Hl Hv Hn Hevs Hrun. cbn [run] in Hrun.
  destruct (step env {| state := s; tasks := [] |} Submit) as [c0|] eqn:Hstep;
    [|discriminate].
  destruct (settings_do_not_matter env evs c0 c0 c (same_conversation_refl c0) Hn Hrun)
    as (c2 & Hrun2 & Hm & Hl2 & He & _ & Ht).
  rewrite Hevs in Hrun2.
  assert (Hscript : run env {| state := s; tasks := [] |} (script f reads) = Some c2).
  { unfold script. cbn [run]. rewrite Hstep. exact Hrun2. }
  apply (submission_is_a_run env s f reads c2 Hl Hv) in Hscript.
  injection Hscript as Hst Hts. rewrite <- Hst, <- Hts. auto.
Qed.

Lemma submission_with_settings_typed_witness :
  isLoading (typed "Hello") = false /\ validation relay_page (typed "Hello") = None
  /\ option_map (fun c => messages (state c))
       (run relay_page {| state := typed "Hello"; tasks := [] |}
          [ Submit; SelectModel (lit "gpt-4o-mini");
            FetchSettles 0 (Response 200 true);
            TypeDeveloperMessage (lit "Be brief.");
            ReadSettles 0 (ReadValue [0x48; 0x69]); ReadSettles 0 ReadDone ])
     = Some (messages (fst (submission relay_page (typed "Hello") (Response 200 true)
                              [ReadValue [0x48; 0x69]; ReadDone]))).
Proof.
  split; [reflexivity|]. split; [reflexivity|].
  destruct (run relay_page {| state := typed "Hello"; tasks := [] |}
              [ Submit; SelectModel (lit "gpt-4o-mini");
                FetchSettles 0 (Response 200 true);
                TypeDeveloperMessage (lit "Be brief.");
                ReadSettles 0 (ReadValue [0x48; 0x69]); ReadSettles 0 ReadDone ])
    as [c|] eqn:Hrun; [|discriminate Hrun].
  cbn [option_map]. f_equal.
  exact (proj1 (submission_with_settings_typed relay_page (typed "Hello")
                  (Response 200 true) [ReadValue [0x48; 0x69]; ReadDone]
                  [ SelectModel (lit "gpt-4o-mini");
                    FetchSettles 0 (Response 200 true);
                    TypeDeveloperMessage (lit "Be brief.");
                    ReadSettles 0 (ReadValue [0x48; 0x69]); ReadSettles 0 ReadDone ]
                  c eq_refl eq_refl eq_refl eq_refl Hrun)).
Defined.

(** ** How a submission ends *)

Lemma filter_not_empty_all (ms : list Message) :
  Forall (fun m => content m <> [])
         (List.filter (fun msg => not_empty (content msg)) ms).
Proof.
  apply List.Forall_forall. intros m Hin. apply List.filter_In in Hin as [_ Hne].
  destruct (content m); [discriminate | discriminate].
Qed.

(** The read loop against a script: where it stands, and what it did to the
    loading flag, the error and the message field. *)
Lemma read_loop_outcome reads : forall s t,
  match reads_ending reads with
  | None =>
      (exists t', snd (read_loop s t reads) = Some t')
      /\ isLoading (fst (read_loop s t reads)) = isLoading s
      /\ error (fst (read_loop s t reads)) = error s
      /\ userMessage (fst (read_loop s t reads)) = userMessage s
  | Some Completed =>
      snd (read_loop s t reads) = None
      /\ isLoading (fst (read_loop s t reads)) = false
      /\ error (fst (read_loop s t reads)) = error s
      /\ userMessage (fst (read_loop s t reads)) = []
  | Some (Failed err) =>
      snd (read_loop s t reads) = None
      /\ isLoading (fst (read_loop s t reads)) = false
      /\ error (fst (read_loop s t reads)) = error_text err
      /\ userMessage (fst (read_loop s t reads)) = userMessage s
      /\ Forall (fun m => content m <> []) (messages (fst (read_loop s t reads)))
  end.
Proof.
  induction reads as [|r rest IH]; intros s t; cbn [reads_ending read_loop].
  - cbn. eauto.
  - destruct r as [value| |err]; cbn [after_read].
    + destruct (TextDecoder.decode (decoder t) value) as [d chunk].
      exact (IH (perform s [SetMessages
                              (ReplaceLast (assistant_turn (assistantMessage t ++ chunk)))])
                {| phase := AwaitRead; assistantMessage := assistantMessage t ++ chunk;
                   decoder := d |}).
    + cbn. auto.
    + cbn [fst snd]. repeat split. apply filter_not_empty_all.
Qed.

(** A submission against a script: where it stands, and what it did to the
    loading flag, the error and the message field. *)
Lemma submission_outcome env s f reads :
  validation env s = None ->
  match ending f reads with
  | None =>
      (exists t', snd (submission env s f reads) = Some t')
      /\ isLoading (fst (submission env s f reads)) = true
      /\ error (fst (submission env s f reads)) = []
      /\ userMessage (fst (submission env s f reads)) = userMessage s
  | Some Completed =>
      snd (submission env s f reads) = None
      /\ isLoading (fst (submission env s f reads)) = false
      /\ error (fst (submission env s f reads)) = []
      /\ userMessage (fst (submission env s f reads)) = []
  | Some (Failed err) =>
      snd (submission env s f reads) = None
      /\ isLoading (fst (submission env s f reads)) = false
      /\ error (fst (submission env s f reads)) = error_text err
      /\ userMessage (fst (submission env s f reads)) = userMessage s
      /\ Forall (fun m => content m <> [])
                (messages (fst (submission env s f reads)))
  end.
Proof.
  intros Hv. unfold submission, handleSubmit, ending. rewrite Hv.
  destruct f as [err|status has_body]; cbn [after_fetch].
  - cbn [fst snd]. repeat split. apply filter_not_empty_all.
  - destruct (ok status); cbn [negb].
    + destruct has_body; cbn [negb].
      * exact (read_loop_outcome reads _ _).
      * cbn [fst snd]. repeat split. apply filter_not_empty_all.
    + cbn [fst snd]. repeat split. apply filter_not_empty_all.
Qed.

Lemma read_loop_settings reads : forall s t,
  apiKey (fst (read_loop s t reads)) = apiKey s
  /\ developerMessage (fst (read_loop s t reads)) = developerMessage s
  /\ model (fst (read_loop s t reads)) = model s.
Proof.
  induction reads as [|r rest IH]; intros s t; cbn [read_loop]; [auto|].
  destruct r as [value| |err]; cbn [after_read]; [|cbn; auto|cbn; auto].
  destruct (TextDecoder.decode (decoder t) value) as [d chunk].
  exact (IH (perform s [SetMessages
                          (ReplaceLast (assistant_turn (assistantMessage t ++ chunk)))])
            {| phase := AwaitRead; assistantMessage := assistantMessage t ++ chunk;
               decoder := d |}).
Qed.

Lemma submission_settings env s f reads :
  apiKey (fst (submission env s f reads)) = apiKey s
  /\ developerMessage (fst (submission env s f reads)) = developerMessage s
  /\ model (fst (submission env s f reads)) = model s.
Proof.
  unfold submission, handleSubmit. destruct (validation env s); [cbn; auto|].
  destruct f as [err|status has_body]; cbn [after_fetch]; [cbn; auto|].
  destruct (ok status); cbn [negb]; [|cbn; auto].
  destruct has_body; cbn [negb]; [|cbn; auto].
  exact (read_loop_settings reads _ _).
Qed.

(** X1: whatever the network does, a submission never changes the key, the
    system prompt or the model: what the settings panel shows after it is
    what it showed before. *)
Theorem submission_keeps_the_settings env s f reads :
  key_field (render env (fst (submission env s f reads))) = key_field (render env s)
  /\ prompt_field (render env (fst (submission env s f reads)))
     = prompt_field (render env s)
  /\ model_selected (render env (fst (submission env s f reads)))
     = model_selected (render env s).
Proof.
  destruct (submission_settings env s f reads) as (Hk & Hd & Hm).
  cbn [render key_field prompt_field model_selected]. rewrite Hk, Hd, Hm. auto.
Qed.

(** X2: the loading flag follows the handler.  After a submission that
    passed the validations it is set exactly while the handler is suspended
    at an await, and cleared however the handler ended; a submission stopped
    at a validation leaves it as it was. *)
Theorem loading_flag_follows_the_handler env s f reads :
  isLoading (fst (submission env s f reads))
  = match validation env s with
    | Some _ => isLoading s
    | None =>
        match snd (submission env s f reads) with
        | Some _ => true
        | None => false
        end
    end.
Proof.
  destruct (validation env s) as [msg|] eqn:Hv.
  - unfold submission, handleSubmit. rewrite Hv. reflexivity.
  - pose proof (submission_outcome env s f reads Hv) as H.
    destruct (ending f reads) as [[|err]|].
    + destruct H as (-> & -> & _). reflexivity.
    + destruct H as (-> & -> & _). reflexivity.
    + destruct H as ([t' ->] & -> & _). reflexivity.
Qed.

(** X3: after a submission that failed, at the response or in the middle of
    the stream, the page is ready for another try: the form is enabled, the
    typed message is still in the field, and submitting again passes the
    validations and sends the same request. *)
Theorem failed_submission_can_be_retried env s f reads err :
  validation env s = None ->
  ending f reads = Some (Failed err) ->
  let after := fst (submission env s f reads) in
  snd (submission env s f reads) = None
  /\ error after = error_text err
  /\ isLoading after = false
  /\ userMessage after = userMessage s
  /\ validation env after = None
  /\ fetches (fst (handleSubmit env after)) = [request env s]
  /\ appended (fst (handleSubmit env after)) = [user_turn s].
Proof.
  intros Hv He after.
  pose proof (submission_outcome env s f reads Hv) as H. rewrite He in H.
  destruct H as (Hnone & Hl & Herr & Hu & _).
  destruct (submission_settings env s f reads) as (Hk & Hd & Hm).
  fold after in Hl, Herr, Hu, Hk, Hd, Hm.
  assert (Hv' : validation env after = None).
  { unfold validation in *. rewrite Hk, Hu. exact Hv. }
  assert (Hr : request env after = request env s).
  { unfold request. rewrite Hk, Hd, Hu, Hm. reflexivity. }
  assert (Ht : user_turn after = user_turn s).
  { unfold user_turn. rewrite Hu. reflexivity. }
  repeat split; try assumption.
  - unfold handleSubmit. rewrite Hv'. cbn. rewrite Hr. reflexivity.
  - unfold handleSubmit. rewrite Hv'. cbn. rewrite Ht. reflexivity.
Qed.

Lemma failed_submission_can_be_retried_witness :
  validation relay_page (typed "Hello") = None
  /\ ending (Response 200 true)
       [ReadValue [0x48]; ReadRejected (ErrorObject (lit "network error"))]
     = Some (Failed (ErrorObject (lit "network error")))
  /\ validation relay_page
       (fst (submission relay_page (typed "Hello") (Response 200 true)
               [ReadValue [0x48]; ReadRejected (ErrorObject (lit "network error"))]))
     = None.
Proof.
  split; [reflexivity|]. split; [reflexivity|].
  pose proof (failed_submission_can_be_retried relay_page (typed "Hello")
                (Response 200 true)
                [ReadValue [0x48]; ReadRejected (ErrorObject (lit "network error"))]
                (ErrorObject (lit "network error")) eq_refl eq_refl) as H.
  cbv zeta in H. exact (proj1 (proj2 (proj2 (proj2 (proj2 H))))).
Defined.

(** X4: after a submission whose stream ended, the message field is empty
    and no error is shown, so submitting again at once is stopped at the
    validation of the message and calls nothing. *)
Theorem completed_submission_empties_the_field env s f reads :
  validation env s = None ->
  ending f reads = Some Completed ->
  let after := fst (submission env s f reads) in
  snd (submission env s f reads) = None
  /\ userMessage after = []
  /\ error after = []
  /\ isLoading after = false
  /\ validation env after = Some (lit "Please enter a message")
  /\ fetches (fst (handleSubmit env after)) = [].
Proof.
  intros Hv He after.
  pose proof (submission_outcome env s f reads Hv) as H. rewrite He in H.
  destruct H as (Hnone & Hl & Herr & Hu).
  destruct (submission_settings env s f reads) as (Hk & _).
  fold after in Hl, Herr, Hu, Hk.
  assert (Hv' : validation env after = Some (lit "Please enter a message")).
  { unfold validation in *. rewrite Hk, Hu.
    destruct (match page env with ClientKey => _ | RelayKey => _ end);
      [discriminate | reflexivity]. }
  repeat split; try assumption.
  unfold handleSubmit. rewrite Hv'. reflexivity.
Qed.

Lemma completed_submission_empties_the_field_witness :
  validation relay_page (typed "Hello") = None
  /\ ending (Response 200 true) [ReadValue [0x48; 0x69]; ReadDone] = Some Completed
  /\ userMessage
       (fst (submission relay_page (typed "Hello") (Response 200 true)
               [ReadValue [0x48; 0x69]; ReadDone]))
     = [].
Proof.
  split; [reflexivity|]. split; [reflexivity|].
  pose proof (completed_submission_empties_the_field relay_page (typed "Hello")
                (Response 200 true) [ReadValue [0x48; 0x69]; ReadDone]
                eq_refl eq_refl) as H.
  cbv zeta in H. exact (proj1 (proj2 H)).
Defined.

(** ** What is validated and what is sent *)

Lemma validation_key env s :
  validation env s = None -> page env = ClientKey ->
  truthy (trim (apiKey s)) = true.
Proof.
  unfold validation. intros H Hp. rewrite Hp in H.
  destruct (truthy (trim (apiKey s))); [reflexivity | discriminate].
Qed.

(** X5: a request is only ever sent well-formed.  The one [fetch] of a
    submission that passed the validations carries the message as typed,
    which is not blank, a system prompt that is never empty (the typed one,
    or the stock one when the field is empty), the selected model, the key
    only on the page that has a key field, where it is not blank, and a URL
    that ends with [/api/chat] after a base that is not empty. *)
Theorem issued_request_is_well_formed env s r :
  In r (fetches (fst (handleSubmit env s))) ->
  fetches (fst (handleSubmit env s)) = [r]
  /\ user_message r = userMessage s
  /\ truthy (trim (user_message r)) = true
  /\ truthy (developer_message r) = true
  /\ developer_message r
     = (if truthy (developerMessage s) then developerMessage s
        else lit "You are a helpful assistant.")
  /\ req_model r = model s
  /\ match page env with
     | ClientKey => api_key r = Some (apiKey s) /\ truthy (trim (apiKey s)) = true
     | RelayKey => api_key r = None
     end
  /\ exists base,
       url r = base ++ lit "/api/chat" /\ truthy base = true
       /\ (NEXT_PUBLIC_API_URL env = Some base \/ base = lit "http://localhost:8000").
Proof.
  unfold handleSubmit. destruct (validation env s) eqn:Hv; [intros []|].
  cbn [fst fetches]. intros [<-|[]].
  split; [reflexivity|]. split; [reflexivity|].
  split; [exact (validation_user_message env s Hv)|].
  split; [cbn; unfold or_else; destruct (truthy (developerMessage s)) eqn:E;
          [exact E | reflexivity]|].
  split; [reflexivity|]. split; [reflexivity|]. split.
  - pose proof (validation_key env s Hv) as Hk. cbn.
    destruct (page env); auto.
  - cbn [url request]. destruct (NEXT_PUBLIC_API_URL env) as [u|].
    + unfold or_else. destruct (truthy u) eqn:E; eexists; eauto.
    + eexists; eauto.
Qed.

Lemma issued_request_is_well_formed_witness :
  In (request client_page with_key) (fetches (fst (handleSubmit client_page with_key)))
  /\ user_message (request client_page with_key) = lit "Hello"
  /\ developer_message (request client_page with_key)
     = lit "You are a helpful assistant.".
Proof.
  assert (H : In (request client_page with_key)
                 (fetches (fst (handleSubmit client_page with_key))))
    by (left; reflexivity).
  split; [exact H|].
  destruct (issued_request_is_well_formed client_page with_key _ H)
    as (_ & Hu & _ & _ & Hd & _).
  split; [exact Hu | exact Hd].
Defined.

Lemma trimStart_nil s : trimStart s = [] <-> forallb is_white_space s = true.
Proof.
  induction s as [|c r IH]; cbn [trimStart forallb]; [tauto|].
  destruct (is_white_space c); cbn [andb]; [exact IH|].
  split; discriminate.
Qed.

Lemma trimStart_head s c r : trimStart s = c :: r -> is_white_space c = false.
Proof.
  induction s as [|x s IH]; cbn [trimStart]; [discriminate|].
  destruct (is_white_space x) eqn:E; [exact IH|]. intros [= <- _]. exact E.
Qed.

Lemma forallb_rev {A} (p : A -> bool) (l : list A) :
  forallb p (rev l) = forallb p l.
Proof.
  induction l as [|x l IH]; [reflexivity|]. cbn [rev forallb].
  rewrite forallb_app, IH. cbn. rewrite andb_true_r. apply andb_comm.
Qed.

(** [trim] gives the empty string on the strings made of white space only,
    and on no other. *)
Lemma trim_nil s : trim s = [] <-> forallb is_white_space s = true.
Proof.
  rewrite <- trimStart_nil. unfold trim, trimEnd. split.
  - intros H. apply (f_equal (@rev Z)) in H. rewrite rev_involutive in H.
    cbn [rev] in H. apply trimStart_nil in H. rewrite forallb_rev in H.
    destruct (trimStart s) as [|c r] eqn:E; [reflexivity|].
    apply trimStart_head in E. cbn [forallb] in H. rewrite E in H. discriminate.
  - intros ->. reflexivity.
Qed.

Lemma truthy_false (s : jsstring) : truthy s = false <-> s = [].
Proof. destruct s; cbn; split; congruence. Qed.

(** X6: a submission calls the relay exactly when the message has a
    character that is not white space and, on the page with a key field, the
    key has one too; in every other case nothing is called, nothing is
    appended and the only effect is the error. *)
Theorem fetch_iff_not_blank env s :
  (fetches (fst (handleSubmit env s)) <> []
   <-> forallb is_white_space (userMessage s) = false
       /\ (page env = ClientKey -> forallb is_white_space (apiKey s) = false))
  /\ (fetches (fst (handleSubmit env s)) = [] ->
      appended (fst (handleSubmit env s)) = []
      /\ snd (handleSubmit env s) = None
      /\ exists msg, fst (handleSubmit env s) = [SetError msg] /\ truthy msg = true).
Proof.
  assert (Hblank : forall x, truthy (trim x) = negb (forallb is_white_space x)).
  { intros x. destruct (forallb is_white_space x) eqn:E; cbn [negb].
    - apply truthy_false, trim_nil, E.
    - destruct (truthy (trim x)) eqn:T; [reflexivity|].
      apply truthy_false, trim_nil in T. congruence. }
  unfold handleSubmit, validation. rewrite !Hblank.
  destruct (page env) eqn:Hp.
  - destruct (forallb is_white_space (apiKey s)); cbn [negb].
    + split; [|intros _; repeat split; eexists; split; reflexivity].
      split; [intros H; exfalso; apply H; reflexivity|].
      intros [_ H]. discriminate (H eq_refl).
    + destruct (forallb is_white_space (userMessage s)); cbn [negb].
      * split; [|intros _; repeat split; eexists; split; reflexivity].
        split; [intros H; exfalso; apply H; reflexivity | intros [? _]; discriminate].
      * split; [|discriminate]. split; [auto | discriminate].
  - destruct (forallb is_white_space (userMessage s)); cbn [negb].
    + split; [|intros _; repeat split; eexists; split; reflexivity].
      split; [intros H; exfalso; apply H; reflexivity | intros [? _]; discriminate].
    + split; [|discriminate]. split; [|discriminate]. intros _. split; [reflexivity|].
      discriminate.
Qed.

(** ** Failures before the stream *)

Lemma lit_inj a b : lit a = lit b -> a = b.
Proof.
  unfold lit. intros H.
  rewrite <- (string_of_list_ascii_of_string a), <- (string_of_list_ascii_of_string b).
  f_equal. revert H.
  generalize (list_ascii_of_string a) (list_ascii_of_string b).
  induction l as [|x l IH]; intros [|y l']; cbn [map]; try discriminate; [reflexivity|].
  intros [= Hxy Hl]. f_equal; [|apply IH; exact Hl].
  rewrite <- (ascii_N_embedding x), <- (ascii_N_embedding y). f_equal. lia.
Qed.

Lemma number_to_string_inj a b : number_to_string a = number_to_string b -> a = b.
Proof.
  unfold number_to_string. intros H. apply lit_inj in H.
  assert (Hn : forall n, N.to_uint n <> Decimal.Nil).
  { intros [|p]; [discriminate | apply DecimalPos.Unsigned.to_uint_nonnil]. }
  apply DecimalN.Unsigned.to_uint_inj.
  pose proof (NilZero.usu (N.to_uint a) (Hn a)) as Ha.
  pose proof (NilZero.usu (N.to_uint b) (Hn b)) as Hb.
  rewrite H in Ha. congruence.
Qed.

Lemma number_to_string_not_empty n : truthy (number_to_string n) = true.
Proof.
  unfold number_to_string.
  destruct (NilZero.string_of_uint (N.to_uint n)) eqn:E; [|reflexivity].
  exfalso. destruct n as [|p]; [discriminate E|].
  cbn [N.to_uint] in E. unfold NilZero.string_of_uint in E.
  pose proof (DecimalPos.Unsigned.to_uint_nonnil p) as Hp.
  destruct (Pos.to_uint p); try contradiction; discriminate E.
Qed.

(** X7: a response with a status outside 200-299 always shows in the error
    box, and the message shown tells the statuses apart: two such
    submissions show the same message only for the same status. *)
Theorem api_error_names_the_status env s1 s2 a b body1 body2 reads1 reads2 :
  validation env s1 = None -> validation env s2 = None ->
  ok a = false -> ok b = false ->
  let shown1 := error_box (render env (fst (submission env s1 (Response a body1) reads1))) in
  let shown2 := error_box (render env (fst (submission env s2 (Response b body2) reads2))) in
  shown1 = Some (lit "API error: " ++ number_to_string a)
  /\ (shown1 = shown2 -> a = b).
Proof.
  intros Hv1 Hv2 Ha Hb shown1 shown2.
  assert (H : forall s st body reads, validation env s = None -> ok st = false ->
    error_box (render env (fst (submission env s (Response st body) reads)))
    = Some (lit "API error: " ++ number_to_string st)).
  { intros s st body reads Hv Hok.
    pose proof (submission_outcome env s (Response st body) reads Hv) as Ho.
    unfold ending in Ho. rewrite Hok in Ho. cbn [negb] in Ho.
    destruct Ho as (_ & _ & He & _). cbn [render error_box]. rewrite He.
    reflexivity. }
  subst shown1 shown2. rewrite (H s1 a body1 reads1 Hv1 Ha), (H s2 b body2 reads2 Hv2 Hb).
  split; [reflexivity|]. intros [= E]. apply number_to_string_inj. exact E.
Qed.

Lemma api_error_names_the_status_witness :
  validation relay_page (typed "Hello") = None /\ ok 404 = false /\ ok 500 = false
  /\ error_box (render relay_page
                  (fst (submission relay_page (typed "Hello") (Response 404 true) [])))
     = Some (lit "API error: 404").
Proof.
  split; [reflexivity|]. split; [reflexivity|]. split; [reflexivity|].
  exact (proj1 (api_error_names_the_status relay_page (typed "Hello") (typed "Hello")
                  404 500 true true [] [] eq_refl eq_refl eq_refl eq_refl)).
Defined.

(** X8: a rejected [fetch], a status outside 200-299 and a successful
    response whose body is null all end the submission before any read, in
    the same way: whatever the script of reads, the conversation is the
    earlier turns whose content is not empty followed by the user turn, and
    the error is the caught value's message, [No response body] for the
    missing body. *)
Theorem failure_before_the_stream env s f err :
  validation env s = None ->
  ending f [] = Some (Failed err) ->
  (forall reads,
     submission env s f reads = submission env s f []
     /\ messages (fst (submission env s f reads))
        = List.filter (fun msg => not_empty (content msg)) (messages s) ++ [user_turn s]
     /\ error (fst (submission env s f reads)) = error_text err)
  /\ (forall status, ok status = true -> f = Response status false ->
        err = ErrorObject (lit "No response body"))
  /\ (forall thrown, f = FetchRejected thrown -> err = thrown).
Proof.
  intros Hv He.
  pose proof (validation_user_message env s Hv) as Hu. apply truthy_trim in Hu.
  assert (Hend : after_fetch f = (catch_block err ++ finally_block, None)).
  { destruct f as [thrown|status has_body]; cbn [ending after_fetch] in *.
    - injection He as ->. reflexivity.
    - destruct (negb (ok status)); [injection He as <-; reflexivity|].
      destruct (negb has_body); [injection He as <-; reflexivity|discriminate]. }
  split; [|split].
  - intros reads. unfold submission, handleSubmit. rewrite Hv, Hend.
    split; [reflexivity|]. cbn. rewrite filter_not_empty_app. cbn.
    unfold not_empty. rewrite Hu. auto.
  - intros status Hok ->. cbn [ending] in He. rewrite Hok in He. cbn [negb] in He.
    injection He as <-. reflexivity.
  - intros thrown ->. cbn [ending] in He. injection He as <-. reflexivity.
Qed.

Lemma failure_before_the_stream_witness :
  validation relay_page (typed "Hello") = None
  /\ ending (Response 204 false) [] = Some (Failed (ErrorObject (lit "No response body")))
  /\ error (fst (submission relay_page (typed "Hello") (Response 204 false) [ReadDone]))
     = lit "No response body".
Proof.
  split; [reflexivity|]. split; [reflexivity|].
  destruct (proj1 (failure_before_the_stream relay_page (typed "Hello")
                     (Response 204 false) (ErrorObject (lit "No response body"))
                     eq_refl eq_refl) [ReadDone]) as (_ & _ & H).
  exact H.
Defined.

(** ** The answer as text *)

Module Utf8Cut.
Import TextDecoder Utf8Facts.

(** The first bytes of a character, short of the last one, put the decoder
    inside a sequence and give no code point. *)
Lemma process_proper_prefix d cp a b :
  scalar_value cp -> bytes_needed d = 0 ->
  utf8_encode cp = a ++ b -> b <> [] ->
  snd (process d a) = [].
Proof.
  intros Hcp Hd Hsplit Hb. unfold utf8_encode in Hsplit.
  destruct (Z.leb_spec cp 0x7F) as [H1|H1].
  { destruct a as [|x1 [|x2 a]]; cbn [app] in Hsplit; [reflexivity| |discriminate].
    injection Hsplit as _ <-. contradiction. }
  rewrite !cont_byte, !Z.shiftr_div_pow2 in Hsplit by lia.
  change (2 ^ 6) with 64 in Hsplit; change (2 ^ 12) with 4096 in Hsplit;
    change (2 ^ 18) with 262144 in Hsplit.
  destruct (Z.leb_spec cp 0x7FF) as [H2|H2].
  { destruct a as [|x1 [|x2 [|x3 a]]]; cbn [app] in Hsplit;
      [reflexivity| | |discriminate].
    - injection Hsplit as <- _. rewrite process_cons.
      rewrite step_lead2 by (try assumption; Z.div_mod_to_equations; lia).
      reflexivity.
    - injection Hsplit as _ _ <-. contradiction. }
  destruct (Z.leb_spec cp 0xFFFF) as [H3|H3].
  { destruct a as [|x1 [|x2 [|x3 [|x4 a]]]]; cbn [app] in Hsplit;
      [reflexivity| | | |discriminate].
    - injection Hsplit as <- _. rewrite process_cons.
      rewrite step_lead3 by (try assumption; Z.div_mod_to_equations; lia).
      reflexivity.
    - injection Hsplit as <- <- _. rewrite process_cons.
      rewrite step_lead3 by (try assumption; Z.div_mod_to_equations; lia). fields.
      rewrite process_cons. rewrite step_cont.
      2: fields; lia.
      2: { fields. destruct (Z.eqb_spec (cp / 4096 + 224) 224);
           destruct (Z.eqb_spec (cp / 4096 + 224) 237);
           destruct Hcp; Z.div_mod_to_equations; lia. }
      2: fields; lia.
      reflexivity.
    - injection Hsplit as _ _ _ <-. contradiction. }
  assert (cp <= 0x10FFFF) by (destruct Hcp; lia).
  assert (Hstep2 : forall y, handler
     {| code_point := (cp / 262144 + 240) mod 8; bytes_seen := 0; bytes_needed := 3;
        lower_boundary := if cp / 262144 + 240 =? 240 then 144 else 128;
        upper_boundary := if cp / 262144 + 240 =? 244 then 143 else 191;
        bom_seen := y |} (128 + (cp / 4096) mod 64)
     = ({| code_point := (cp / 262144 + 240) mod 8 * 64 + (cp / 4096) mod 64;
           bytes_seen := 0 + 1; bytes_needed := 3; lower_boundary := 128;
           upper_boundary := 191; bom_seen := y |}, [])).
  { intros y. rewrite step_cont; [reflexivity|fields; lia| |fields; lia].
    fields. destruct (Z.eqb_spec (cp / 262144 + 240) 240);
      destruct (Z.eqb_spec (cp / 262144 + 240) 244);
      Z.div_mod_to_equations; lia. }
  destruct a as [|x1 [|x2 [|x3 [|x4 [|x5 a]]]]]; cbn [app] in Hsplit;
    [reflexivity| | | | |discriminate].
  - injection Hsplit as <- _. rewrite process_cons.
    rewrite step_lead4 by (try assumption; Z.div_mod_to_equations; lia).
    reflexivity.
  - injection Hsplit as <- <- _. rewrite process_cons.
    rewrite step_lead4 by (try assumption; Z.div_mod_to_equations; lia). fields.
    rewrite process_cons, Hstep2. reflexivity.
  - injection Hsplit as <- <- <- _. rewrite process_cons.
    rewrite step_lead4 by (try assumption; Z.div_mod_to_equations; lia). fields.
    rewrite process_cons, Hstep2. fields.
    rewrite process_cons.
    rewrite step_cont by (fields; Z.div_mod_to_equations; lia). reflexivity.
  - injection Hsplit as _ _ _ _ <-. contradiction.
Qed.

(** A whole stream through a new decoder: the text is the code points
    decoded, less a leading byte order mark. *)
Lemma decode_new bytes :
  snd (decode new bytes) = flat_map utf16 (without_signature (snd (process new bytes))).
Proof.
  unfold decode.
  pose proof (TextDecoderFacts.process_bom_seen new bytes) as Hb.
  destruct (process new bytes) as [d out]. cbn [fst snd] in *.
  unfold serialize. rewrite Hb. cbn [bom_seen new].
  destruct out as [|cp rest]; reflexivity.
Qed.

(** The bytes of a well-formed text, followed or not by the first bytes of
    one more character, decode to the text. *)
Lemma decode_text_and_prefix text cp a b :
  Forall scalar_value text -> scalar_value cp ->
  utf8_encode cp = a ++ b -> b <> [] ->
  snd (decode new (flat_map utf8_encode text ++ a))
  = flat_map utf16 (without_signature text).
Proof.
  intros Htext Hcp Hsplit Hb. rewrite decode_new, TextDecoderFacts.process_app.
  destruct (process_encoded_text new text Htext eq_refl) as [Hout Hn].
  cbn [snd]. rewrite Hout, (process_proper_prefix _ cp a b Hcp Hn Hsplit Hb).
  rewrite app_nil_r. reflexivity.
Qed.

End Utf8Cut.

(** The conversation after a stream of increments that ended. *)
Lemma finished_stream env s status chunks :
  validation env s = None -> ok status = true ->
  messages (fst (submission env s (Response status true)
                   (map ReadValue chunks ++ [ReadDone])))
  = messages s
    ++ [user_turn s;
        assistant_turn (snd (TextDecoder.decode TextDecoder.new (concat chunks)))].
Proof.
  intros Hv Hok.
  destruct (submission_values env s status chunks [ReadDone] Hv Hok)
    as (s1 & t1 & Hrun & Hmsg & _).
  rewrite Hrun. cbn. rewrite Hmsg, <- app_assoc, concat_increment_texts.
  rewrite TextDecoderFacts.decode_chunks_concat. reflexivity.
Qed.

(** X9: a well-formed text sent as UTF-8 arrives as it is.  However the
    bytes of the text are cut into increments, once the stream has ended the
    last turn has role [assistant] and its content is the text, in UTF-16,
    less the byte order mark it may begin with. *)
Theorem streamed_text_is_shown env s status text chunks :
  validation env s = None -> ok status = true ->
  Forall scalar_value text ->
  concat chunks = flat_map utf8_encode text ->
  let final :=
    fst (submission env s (Response status true)
           (map ReadValue chunks ++ [ReadDone])) in
  let shown :=
    flat_map TextDecoder.utf16
      match text with
      | [] => []
      | cp :: rest => if cp =? TextDecoder.BOM then rest else text
      end in
  messages final
  = messages s
    ++ [ {| role := lit "user"; content := userMessage s |};
         {| role := lit "assistant"; content := shown |} ]
  /\ exists m,
       last (messages final) = Some m
       /\ role m = lit "assistant" /\ content m = shown.
Proof.
  intros Hv Hok Htext Hbytes final shown.
  assert (Hm : messages final
               = messages s
                 ++ [ {| role := lit "user"; content := userMessage s |};
                      {| role := lit "assistant"; content := shown |} ]).
  { subst final shown. rewrite (finished_stream env s status chunks Hv Hok).
    rewrite Hbytes, (Utf8Facts.decode_encoded_text text Htext). reflexivity. }
  split; [exact Hm|].
  exists {| role := lit "assistant"; content := shown |}.
  rewrite Hm. split; [apply last_two | split; reflexivity].
Qed.

Lemma streamed_text_is_shown_witness :
  validation relay_page (typed "Hello") = None /\ ok 200 = true
  /\ Forall scalar_value [0x48; 0x20AC; 0x1F600]
  /\ concat [[0x48; 0xE2; 0x82]; [0xAC; 0xF0; 0x9F]; [0x98; 0x80]]
     = flat_map utf8_encode [0x48; 0x20AC; 0x1F600]
  /\ messages
       (fst (submission relay_page (typed "Hello") (Response 200 true)
               (map ReadValue [[0x48; 0xE2; 0x82]; [0xAC; 0xF0; 0x9F]; [0x98; 0x80]]
                ++ [ReadDone])))
     = [ {| role := lit "user"; content := lit "Hello" |};
         {| role := lit "assistant"; content := [0x48; 0x20AC; 0xD83D; 0xDE00] |} ].
Proof.
  assert (Ht : Forall scalar_value [0x48; 0x20AC; 0x1F600]).
  { repeat (constructor; [unfold scalar_value; lia|]). constructor. }
  split; [reflexivity|]. split; [reflexivity|]. split; [exact Ht|].
  split; [reflexivity|].
  exact (proj1 (streamed_text_is_shown relay_page (typed "Hello") 200
                  [0x48; 0x20AC; 0x1F600]
                  [[0x48; 0xE2; 0x82]; [0xAC; 0xF0; 0x9F]; [0x98; 0x80]]
                  eq_refl eq_refl Ht eq_refl)).
Defined.

(** X10: the handler never flushes the decoder.  When the stream ends in the
    middle of a character, the bytes of that character that did arrive are
    dropped without a trace: the last turn has role [assistant] and its
    content is the text before the cut character, with no replacement
    character. *)
Theorem cut_off_character_is_dropped env s status text cp a b chunks :
  validation env s = None -> ok status = true ->
  Forall scalar_value text -> scalar_value cp ->
  utf8_encode cp = a ++ b -> b <> [] ->
  concat chunks = flat_map utf8_encode text ++ a ->
  let final :=
    fst (submission env s (Response status true)
           (map ReadValue chunks ++ [ReadDone])) in
  let shown :=
    flat_map TextDecoder.utf16
      match text with
      | [] => []
      | c :: rest => if c =? TextDecoder.BOM then rest else text
      end in
  messages final
  = messages s
    ++ [ {| role := lit "user"; content := userMessage s |};
         {| role := lit "assistant"; content := shown |} ]
  /\ exists m,
       last (messages final) = Some m
       /\ role m = lit "assistant" /\ content m = shown.
Proof.
  intros Hv Hok Htext Hcp Hsplit Hb Hbytes final shown.
  assert (Hm : messages final
               = messages s
                 ++ [ {| role := lit "user"; content := userMessage s |};
                      {| role := lit "assistant"; content := shown |} ]).
  { subst final shown.
    rewrite (finished_stream env s status chunks Hv Hok), Hbytes.
    rewrite (Utf8Cut.decode_text_and_prefix text cp a b Htext Hcp Hsplit Hb).
    reflexivity. }
  split; [exact Hm|].
  exists {| role := lit "assistant"; content := shown |}.
  rewrite Hm. split; [apply last_two | split; reflexivity].
Qed.

Lemma cut_off_character_is_dropped_witness :
  validation relay_page (typed "Hello") = None /\ ok 200 = true
  /\ Forall scalar_value [0x48; 0x69] /\ scalar_value 0x20AC
  /\ utf8_encode 0x20AC = [0xE2; 0x82] ++ [0xAC] /\ [0xAC] <> []
  /\ messages
       (fst (submission relay_page (typed "Hello") (Response 200 true)
               (map ReadValue [[0x48]; [0x69; 0xE2; 0x82]] ++ [ReadDone])))
     = [ {| role := lit "user"; content := lit "Hello" |};
         {| role := lit "assistant"; content := lit "Hi" |} ].
Proof.
  assert (Ht : Forall scalar_value [0x48; 0x69]).
  { repeat (constructor; [unfold scalar_value; lia|]). constructor. }
  assert (Hc : scalar_value 0x20AC) by (unfold scalar_value; lia).
  split; [reflexivity|]. split; [reflexivity|]. split; [exact Ht|].
  split; [exact Hc|]. split; [reflexivity|]. split; [discriminate|].
  exact (proj1 (cut_off_character_is_dropped relay_page (typed "Hello") 200
                  [0x48; 0x69] 0x20AC [0xE2; 0x82] [0xAC]
                  [[0x48]; [0x69; 0xE2; 0x82]]
                  eq_refl eq_refl Ht Hc eq_refl ltac:(discriminate) eq_refl)).
Defined.

(** ** A character cut by a read boundary, with text around it *)

Module Utf8Split.
Import TextDecoder Utf8Facts.

(** A well-formed text through a decoder that is between characters: the
    text comes out as it is, unless it opens the stream with a byte order
    mark. *)
Lemma decode_text d text :
  Forall scalar_value text -> bytes_needed d = 0 ->
  bom_seen d = true \/ hd 0 text <> BOM ->
  snd (decode d (flat_map utf8_encode text)) = flat_map utf16 text
  /\ bytes_needed (fst (decode d (flat_map utf8_encode text))) = 0.
Proof.
  intros Htext Hd Hbom. unfold decode.
  destruct (process_encoded_text d text Htext Hd) as [Hout Hn].
  pose proof (TextDecoderFacts.process_bom_seen d (flat_map utf8_encode text)) as Hb.
  destruct (process d (flat_map utf8_encode text)) as [d1 out]; cbn [fst snd] in *.
  subst out. unfold serialize. rewrite Hb.
  destruct (bom_seen d) eqn:Hseen; [auto|].
  destruct Hbom as [?|Hne]; [discriminate|].
  destruct text as [|c rest]; [auto|]. cbn [hd] in Hne.
  destruct (Z.eqb_spec c BOM) as [?|_]; [contradiction|].
  cbn [fst snd set_bom bytes_needed]. auto.
Qed.

(** The same text followed by the first bytes of one more character: the
    text comes out, the open character does not yet. *)
Lemma decode_text_and_open d text cp a b :
  Forall scalar_value text -> scalar_value cp ->
  utf8_encode cp = a ++ b -> b <> [] ->
  bytes_needed d = 0 ->
  bom_seen d = true \/ hd cp text <> BOM ->
  snd (decode d (flat_map utf8_encode text ++ a)) = flat_map utf16 text.
Proof.
  intros Htext Hcp Hsplit Hb Hd Hbom. unfold decode.
  rewrite TextDecoderFacts.process_app.
  destruct (process_encoded_text d text Htext Hd) as [Hout Hn].
  rewrite Hout, (Utf8Cut.process_proper_prefix _ cp a b Hcp Hn Hsplit Hb).
  rewrite app_nil_r. unfold serialize.
  rewrite !TextDecoderFacts.process_bom_seen.
  destruct (bom_seen d) eqn:Hseen; [reflexivity|].
  destruct Hbom as [?|Hne]; [discriminate|].
  destruct text as [|c rest]; [reflexivity|]. cbn [hd] in Hne.
  destruct (Z.eqb_spec c BOM) as [?|_]; [contradiction|]. reflexivity.
Qed.

End Utf8Split.

(** The read loop over reads given in two goes. *)
Lemma read_loop_app s t reads1 reads2 :
  read_loop s t (reads1 ++ reads2)
  = match read_loop s t reads1 with
    | (s', Some t') => read_loop s' t' reads2
    | (s', None) => (s', None)
    end.
Proof.
  revert s t; induction reads1 as [|r reads1 IH]; intros s t; [reflexivity|].
  cbn [app read_loop].
  destruct (after_read t r) as [acts [t'|]]; [apply IH | reflexivity].
Qed.

(** One increment, met with the assistant turn holding the text so far. *)
Lemma read_loop_value s t value pre :
  messages s
  = pre ++ [ {| role := lit "assistant"; content := assistantMessage t |} ] ->
  exists s' t',
    read_loop s t [ReadValue value] = (s', Some t')
    /\ messages s'
       = pre ++ [ {| role := lit "assistant";
                     content := assistantMessage t
                                ++ snd (TextDecoder.decode (decoder t) value) |} ]
    /\ assistantMessage t'
       = assistantMessage t ++ snd (TextDecoder.decode (decoder t) value)
    /\ decoder t' = fst (TextDecoder.decode (decoder t) value).
Proof.
  intros Hm. cbn [read_loop after_read].
  destruct (TextDecoder.decode (decoder t) value) as [d1 s1].
  eexists _, _. split; [reflexivity|]. cbn [fst snd assistantMessage decoder].
  split; [|auto]. cbn [perform fold_left apply_action messages apply_updater].
  rewrite Hm. apply array_set_last_snoc.
Qed.

(** C4 (amended): take a scalar value above U+007F whose bytes are cut in
    two by a read boundary: the first increment is a well-formed text
    [before] followed by the first bytes [a] of the character, the second is
    its remaining bytes [b] followed by a well-formed text [after].  They
    arrive at a point where the decoder is between characters and the last
    turn is the assistant's, with the text so far as its content.  Unless
    the first character of the two increments is a byte order mark that
    opens the response, the content after the first increment is the text
    so far followed by [before], and after the second it is that followed by
    the character and by [after]; the role is still [assistant], the turns
    before are untouched, and the decoder is between characters again. *)
Theorem split_character_decodes s t pre before cp after a b :
  Forall scalar_value before -> scalar_value cp -> Forall scalar_value after ->
  0x80 <= cp ->
  utf8_encode cp = a ++ b -> b <> [] ->
  TextDecoder.bytes_needed (decoder t) = 0 ->
  TextDecoder.bom_seen (decoder t) = true \/ hd cp before <> TextDecoder.BOM ->
  messages s
  = pre ++ [ {| role := lit "assistant"; content := assistantMessage t |} ] ->
  let first := flat_map utf8_encode before ++ a in
  let second := b ++ flat_map utf8_encode after in
  let text1 := assistantMessage t ++ flat_map TextDecoder.utf16 before in
  let text2 :=
    text1 ++ TextDecoder.utf16 cp ++ flat_map TextDecoder.utf16 after in
  exists s1 t1 s2 t2,
    read_loop s t [ReadValue first] = (s1, Some t1)
    /\ messages s1 = pre ++ [ {| role := lit "assistant"; content := text1 |} ]
    /\ assistantMessage t1 = text1
    /\ read_loop s1 t1 [ReadValue second] = (s2, Some t2)
    /\ read_loop s t [ReadValue first; ReadValue second] = (s2, Some t2)
    /\ messages s2 = pre ++ [ {| role := lit "assistant"; content := text2 |} ]
    /\ (exists m, last (messages s2) = Some m
                  /\ role m = lit "assistant" /\ content m = text2)
    /\ assistantMessage t2 = text2
    /\ TextDecoder.bytes_needed (decoder t2) = 0.
Proof.
  intros Hbefore Hcp Hafter _ Hsplit Hb Hd Hbom Hm first second text1 text2.
  assert (Hall : first ++ second = flat_map utf8_encode (before ++ cp :: after)).
  { subst first second. rewrite flat_map_app. cbn [flat_map].
    rewrite Hsplit, <- !app_assoc. reflexivity. }
  assert (Hwhole : Forall scalar_value (before ++ cp :: after)).
  { apply Forall_app_2; [assumption | constructor; assumption]. }
  assert (Hbom' : TextDecoder.bom_seen (decoder t) = true
                  \/ hd 0 (before ++ cp :: after) <> TextDecoder.BOM).
  { destruct Hbom as [?|Hne]; [auto|]. right. destruct before; exact Hne. }
  destruct (Utf8Split.decode_text (decoder t) _ Hwhole Hd Hbom') as [Hout Hn].
  pose proof (Utf8Split.decode_text_and_open (decoder t) before cp a b
                Hbefore Hcp Hsplit Hb Hd Hbom) as Hout1.
  fold first in Hout1.
  rewrite <- Hall, TextDecoderFacts.decode_app in Hout, Hn.
  cbn [fst snd] in Hout, Hn.
  rewrite Hout1, flat_map_app in Hout. cbn [flat_map] in Hout.
  apply app_inv_head in Hout.
  destruct (read_loop_value s t first pre Hm) as (s1 & t1 & Hrun1 & Hm1 & Ht1 & Hd1).
  rewrite Hout1 in Hm1, Ht1. fold text1 in Hm1, Ht1.
  assert (Hm1' : messages s1
                 = pre ++ [ {| role := lit "assistant";
                               content := assistantMessage t1 |} ]).
  { rewrite Hm1, Ht1. reflexivity. }
  destruct (read_loop_value s1 t1 second pre Hm1')
    as (s2 & t2 & Hrun2 & Hm2 & Ht2 & Hd2).
  rewrite Hd1, Hout, Ht1 in Hm2, Ht2. fold text2 in Hm2, Ht2.
  exists s1, t1, s2, t2.
  split; [exact Hrun1|]. split; [exact Hm1|]. split; [exact Ht1|].
  split; [exact Hrun2|]. split.
  { change [ReadValue first; ReadValue second]
      with ([ReadValue first] ++ [ReadValue second]).
    rewrite read_loop_app, Hrun1. exact Hrun2. }
  split; [exact Hm2|]. split.
  { exists {| role := lit "assistant"; content := text2 |}.
    rewrite Hm2. split; [apply last_snoc | split; reflexivity]. }
  split; [exact Ht2|]. rewrite Hd2, Hd1. exact Hn.
Qed.

Lemma split_character_decodes_witness :
  let s :=
    with_messages initial_state
      [ {| role := lit "user"; content := lit "Hello" |};
        {| role := lit "assistant"; content := [] |} ] in
  let t :=
    {| phase := AwaitRead; assistantMessage := []; decoder := TextDecoder.new |} in
  Forall scalar_value [0x48] /\ scalar_value 0x20AC /\ Forall scalar_value [0x21]
  /\ 0x80 <= 0x20AC
  /\ utf8_encode 0x20AC = [0xE2] ++ [0x82; 0xAC] /\ [0x82; 0xAC] <> []
  /\ TextDecoder.bytes_needed (decoder t) = 0
  /\ (TextDecoder.bom_seen (decoder t) = true \/ hd 0x20AC [0x48] <> TextDecoder.BOM)
  /\ exists s1 t1 s2 t2,
       read_loop s t [ReadValue [0x48; 0xE2]] = (s1, Some t1)
       /\ messages s1
          = [ {| role := lit "user"; content := lit "Hello" |};
              {| role := lit "assistant"; content := [0x48] |} ]
       /\ read_loop s1 t1 [ReadValue [0x82; 0xAC; 0x21]] = (s2, Some t2)
       /\ messages s2
          = [ {| role := lit "user"; content := lit "Hello" |};
              {| role := lit "assistant"; content := [0x48; 0x20AC; 0x21] |} ].
Proof.
  intros s t.
  assert (H1 : Forall scalar_value [0x48]).
  { constructor; [unfold scalar_value; lia | constructor]. }
  assert (H2 : scalar_value 0x20AC) by (unfold scalar_value; lia).
  assert (H3 : Forall scalar_value [0x21]).
  { constructor; [unfold scalar_value; lia | constructor]. }
  assert (H4 : 0x80 <= 0x20AC) by lia.
  assert (H5 : [0x82; 0xAC] <> ([] : list Z)) by discriminate.
  assert (H6 : TextDecoder.bom_seen (decoder t) = true
               \/ hd 0x20AC [0x48] <> TextDecoder.BOM).
  { right. cbn [hd]. unfold TextDecoder.BOM. lia. }
  split; [exact H1|]. split; [exact H2|]. split; [exact H3|]. split; [exact H4|].
  split; [reflexivity|]. split; [exact H5|]. split; [reflexivity|].
  split; [exact H6|].
  destruct (split_character_decodes s t
              [ {| role := lit "user"; content := lit "Hello" |} ]
              [0x48] 0x20AC [0x21] [0xE2] [0x82; 0xAC]
              H1 H2 H3 H4 eq_refl H5 eq_refl H6 eq_refl)
    as (s1 & t1 & s2 & t2 & Hr1 & Hm1 & _ & Hr2 & _ & Hm2 & _).
  exists s1, t1, s2, t2.
  split; [exact Hr1|]. split; [exact Hm1|]. split; [exact Hr2 | exact Hm2].
Defined.

(** C4 as stated fails for the byte order mark: when U+FEFF is the first
    character of the response and its bytes EF BB BF arrive cut in two, the
    decoder drops it.  The assistant turn's content stays empty, or holds
    only the text that came after the mark. *)
Lemma leading_byte_order_mark_is_dropped :
  scalar_value 0xFEFF /\ 0x80 <= 0xFEFF
  /\ utf8_encode 0xFEFF = [0xEF] ++ [0xBB; 0xBF]
  /\ TextDecoder.utf16 0xFEFF = [0xFEFF]
  /\ validation relay_page (typed "Hello") = None
  /\ messages
       (fst (submission relay_page (typed "Hello") (Response 200 true)
               [ReadValue [0xEF]; ReadValue [0xBB; 0xBF]]))
     = [ {| role := lit "user"; content := lit "Hello" |};
         {| role := lit "assistant"; content := [] |} ]
  /\ messages
       (fst (submission relay_page (typed "Hello") (Response 200 true)
               [ReadValue [0xEF]; ReadValue [0xBB; 0xBF; 0x48]; ReadDone]))
     = [ {| role := lit "user"; content := lit "Hello" |};
         {| role := lit "assistant"; content := [0x48] |} ].
Proof.
  split; [right; lia|]. split; [lia|]. repeat split.
Qed.

(** ** What the conversation holds, and what the page shows of it *)

Lemma handler_made_user_turn env s :
  validation env s = None -> handler_made (user_turn s).
Proof. intros Hv. left. split; [reflexivity | exact (validation_user_message env s Hv)]. Qed.

Lemma handler_made_assistant_turn text : handler_made (assistant_turn text).
Proof. right. reflexivity. Qed.

Lemma Forall_snoc {A} (P : A -> Prop) (l : list A) (x : A) :
  Forall P l -> P x -> Forall P (l ++ [x]).
Proof.
  intros Hl Hx. apply Forall_app_2; [exact Hl|].
  constructor; [exact Hx | constructor].
Qed.

Lemma handler_made_updater u ms :
  Forall handler_made ms ->
  match u with Append m | ReplaceLast m => handler_made m | _ => True end ->
  Forall handler_made (apply_updater u ms).
Proof.
  intros Hms Hu. destruct u as [m|m| |]; cbn [apply_updater].
  - apply Forall_snoc; assumption.
  - unfold array_set. destruct (_ <? 0); [exact Hms|].
    apply Forall_insert; assumption.
  - apply List.Forall_forall. intros m Hin. apply List.filter_In in Hin as [Hin _].
    rewrite List.Forall_forall in Hms. auto.
  - constructor.
Qed.

Lemma invariant_page_initial : invariant_page initial.
Proof. split; [constructor|]. split; [intros H; contradiction|discriminate]. Qed.

Lemma invariant_page_step env c e c' :
  invariant c -> invariant_page c -> step env c e = Some c' -> invariant_page c'.
Proof.
  destruct c as [s ts]. unfold invariant, invariant_page. cbn [tasks state].
  destruct ts as [|t [|t2 ts]]; [| |contradiction].
  - (* nothing is running *)
    intros Hl (Hm & _ & _).
    destruct e; cbn [step state tasks]; rewrite ?Hl;
      try (intros [= <-]; cbn; split; [exact Hm|]; split; [contradiction|discriminate]).
    + destruct (page env); [|discriminate]. intros [= <-]. cbn.
      split; [exact Hm|]. split; [contradiction|discriminate].
    + unfold handleSubmit. destruct (validation env s) eqn:Hv; intros [= <-]; cbn.
      * split; [exact Hm|]. split; [contradiction|discriminate].
      * split.
        { apply Forall_snoc; [exact Hm|]. exact (handler_made_user_turn env s Hv). }
        split; [reflexivity|]. intros t0 _ _. right.
        exists (messages s), (user_turn s). auto.
    + destruct (messages s); [discriminate|]. intros [= <-]. cbn.
      split; [constructor|]. split; [contradiction|discriminate].
    + rewrite lookup_nil. discriminate.
    + rewrite lookup_nil. discriminate.
  - (* one submission is running *)
    intros [Hl _] (Hm & He & Hlast). specialize (He ltac:(discriminate)).
    destruct e; cbn [step state tasks]; rewrite ?Hl; try discriminate.
    + destruct (page env); [|discriminate]. intros [= <-]. cbn. auto.
    + intros [= <-]. cbn. auto.
    + intros [= <-]. cbn. auto.
    + destruct (messages s); [discriminate|]. intros [= <-]. cbn.
      split; [constructor|]. auto.
    + destruct i as [|i]; [|discriminate]. cbn [lookup list_lookup].
      destruct (phase t) eqn:Hp; [|discriminate].
      unfold resume. cbn [state tasks].
      pose proof (handler_made_updater DropEmpty (messages s) Hm I) as Hfail.
      destruct r as [err|status has_body]; cbn [after_fetch].
      * intros [= <-]. cbn [fst snd state tasks delete list_delete].
        split; [exact Hfail|]. split; [contradiction|discriminate].
      * destruct (ok status); cbn [negb].
        2: { intros [= <-]. cbn [fst snd state tasks delete list_delete].
             split; [exact Hfail|]. split; [contradiction|discriminate]. }
        destruct has_body; cbn [negb].
        2: { intros [= <-]. cbn [fst snd state tasks delete list_delete].
             split; [exact Hfail|]. split; [contradiction|discriminate]. }
        intros [= <-]. cbn. split.
        { apply Forall_snoc; [exact Hm|]. apply handler_made_assistant_turn. }
        split; [intros _; exact He|]. intros t0 [= <-]. discriminate.
    + destruct i as [|i]; [|discriminate]. cbn [lookup list_lookup].
      destruct (phase t) eqn:Hp; [discriminate|].
      unfold resume. cbn [state tasks].
      destruct r as [value| |err]; cbn [after_read].
      * destruct (TextDecoder.decode (decoder t) value) as [d chunk].
        intros [= <-]. cbn [fst snd state tasks insert list_insert]. split.
        { exact (handler_made_updater
                   (ReplaceLast (assistant_turn (assistantMessage t ++ chunk)))
                   (messages s) Hm (handler_made_assistant_turn _)). }
        split; [intros _; exact He|]. intros t0 [= <-]. discriminate.
      * intros [= <-]. cbn. split; [exact Hm|]. split; [contradiction|discriminate].
      * intros [= <-]. cbn [fst snd state tasks delete list_delete]. split.
        { exact (handler_made_updater DropEmpty (messages s) Hm I). }
        split; [contradiction|discriminate].
Qed.

Lemma invariants_run env evs : forall c c',
  invariant c -> invariant_page c -> run env c evs = Some c' ->
  invariant c' /\ invariant_page c'.
Proof.
  induction evs as [|e evs IH]; intros c c' Hc Hp; cbn [run].
  - intros [= <-]. auto.
  - destruct (step env c e) as [c1|] eqn:Hs; [|discriminate].
    apply IH; [eapply invariant_step | eapply invariant_page_step]; eassumption.
Qed.

Lemma reachable_invariants env c :
  reachable env c -> invariant c /\ invariant_page c.
Proof.
  intros [evs H].
  exact (invariants_run env evs _ _ invariant_initial invariant_page_initial H).
Qed.

(** X11: the page never shows an error while it is sending.  In every
    reachable state in which the form is disabled, the error box is absent. *)
Theorem no_error_while_sending env c :
  reachable env c ->
  form_disabled (render env (state c)) = true ->
  error_box (render env (state c)) = None
  /\ send_label (render env (state c)) = lit "Sending..."
  /\ exists t, tasks c = [t].
Proof.
  intros Hr Hd. destruct (reachable_invariants env c Hr) as [Hi (_ & He & _)].
  cbn [render form_disabled error_box send_label] in *. rewrite Hd.
  unfold invariant in Hi. destruct (tasks c) as [|t [|t2 ts]]; [congruence| |contradiction].
  rewrite (He ltac:(discriminate)). eauto.
Qed.

Lemma no_error_while_sending_witness :
  reachable relay_page
    {| state := {| apiKey := []; developerMessage := []; userMessage := lit "Hello";
                   model := lit "gpt-4.1-mini";
                   messages := [ {| role := lit "user"; content := lit "Hello" |};
                                 assistant_turn (lit "H") ];
                   isLoading := true; error := [] |};
       tasks := [ {| phase := AwaitRead; assistantMessage := lit "H";
                     decoder := TextDecoder.set_bom TextDecoder.new |} ] |}
  /\ error_box
       (render relay_page
          {| apiKey := []; developerMessage := []; userMessage := lit "Hello";
             model := lit "gpt-4.1-mini";
             messages := [ {| role := lit "user"; content := lit "Hello" |};
                           assistant_turn (lit "H") ];
             isLoading := true; error := [] |})
     = None.
Proof.
  assert (Hr : reachable relay_page
    {| state := {| apiKey := []; developerMessage := []; userMessage := lit "Hello";
                   model := lit "gpt-4.1-mini";
                   messages := [ {| role := lit "user"; content := lit "Hello" |};
                                 assistant_turn (lit "H") ];
                   isLoading := true; error := [] |};
       tasks := [ {| phase := AwaitRead; assistantMessage := lit "H";
                     decoder := TextDecoder.set_bom TextDecoder.new |} ] |}).
  { exists mid_stream. reflexivity. }
  split; [exact Hr|].
  exact (proj1 (no_error_while_sending relay_page _ Hr eq_refl)).
Defined.

Lemma string_eqb_eq a b : string_eqb a b = true <-> a = b.
Proof. unfold string_eqb. apply bool_decide_eq_true. Qed.

(** X12: the conversation only ever holds turns the handlers made: a user's
    turn, whose content is not blank, or an assistant's.  On the page, every
    bubble is either a [You] bubble on the right with a text that is not
    blank, or an [Assistant] bubble on the left. *)
Theorem turns_are_handler_made env c :
  reachable env c ->
  Forall handler_made (messages (state c))
  /\ Forall (fun b =>
               (on_the_right b = true /\ label b = lit "You"
                /\ exists text, body b = PlainText text /\ truthy (trim text) = true)
               \/ (on_the_right b = false /\ label b = lit "Assistant"))
            (bubbles (render env (state c))).
Proof.
  intros Hr. destruct (reachable_invariants env c Hr) as [_ (Hm & _)].
  split; [exact Hm|]. cbn [render bubbles].
  apply List.Forall_forall. intros b Hb.
  apply list_elem_of_In, elem_of_lookup_imap in Hb as (i & m & -> & Hi).
  rewrite List.Forall_forall in Hm.
  assert (Hin : In m (messages (state c))).
  { apply list_elem_of_In. eapply list_elem_of_lookup_2. exact Hi. }
  destruct (Hm m Hin) as [[Hrole Hc] | Hrole]; unfold render_message; rewrite Hrole.
  - left. cbn [on_the_right label body]. repeat split.
    exists (content m). destruct (page env); auto.
  - right. cbn [on_the_right label]. auto.
Qed.

Lemma turns_are_handler_made_witness :
  reachable relay_page
    {| state := {| apiKey := []; developerMessage := []; userMessage := lit "Hello";
                   model := lit "gpt-4.1-mini";
                   messages := [ {| role := lit "user"; content := lit "Hello" |};
                                 assistant_turn (lit "H") ];
                   isLoading := true; error := [] |};
       tasks := [ {| phase := AwaitRead; assistantMessage := lit "H";
                     decoder := TextDecoder.set_bom TextDecoder.new |} ] |}
  /\ Forall handler_made
       [ {| role := lit "user"; content := lit "Hello" |}; assistant_turn (lit "H") ].
Proof.
  assert (Hr : reachable relay_page
    {| state := {| apiKey := []; developerMessage := []; userMessage := lit "Hello";
                   model := lit "gpt-4.1-mini";
                   messages := [ {| role := lit "user"; content := lit "Hello" |};
                                 assistant_turn (lit "H") ];
                   isLoading := true; error := [] |};
       tasks := [ {| phase := AwaitRead; assistantMessage := lit "H";
                     decoder := TextDecoder.set_bom TextDecoder.new |} ] |}).
  { exists mid_stream. reflexivity. }
  split; [exact Hr|].
  exact (proj1 (turns_are_handler_made relay_page _ Hr)).
Defined.

Lemma lookup_snoc_last {A} (pre : list A) (m x : A) (i : nat) :
  (pre ++ [m]) !! i = Some x -> S i = length (pre ++ [m]) -> x = m.
Proof.
  rewrite length_app. cbn [length]. intros Hl Hi.
  assert (i = length pre + 0)%nat as -> by lia.
  rewrite lookup_app_r in Hl by lia.
  replace (length pre + 0 - length pre)%nat with 0%nat in Hl by lia.
  cbn in Hl. congruence.
Qed.

(** X13: on the page without a key field, the three dots show in one place
    and at one time only: in the last bubble, while a submission is reading
    the body stream and has not received any text yet.  They never show on an
    earlier answer that was left empty, nor while the response is awaited. *)
Theorem dots_show_while_the_placeholder_is_empty env c i :
  reachable env c -> page env = RelayKey ->
  (shows_dots (render env (state c)) i = true
   <-> exists t, tasks c = [t] /\ phase t = AwaitRead /\ assistantMessage t = []
                 /\ S i = length (messages (state c))).
Proof.
  intros Hr Hp. destruct (reachable_invariants env c Hr) as [Hi (_ & _ & Hlast)].
  destruct c as [s ts]. unfold invariant in Hi. cbn [state tasks] in *.
  unfold shows_dots. cbn [render bubbles]. rewrite list_lookup_imap.
  unfold render_message. rewrite Hp. split.
  - destruct (messages s !! i) as [m|] eqn:Hm; cbn [fmap option_fmap option_map body];
      [|discriminate].
    destruct (string_eqb (role m) (lit "user")) eqn:Hu; [discriminate|].
    destruct (truthy (content m)) eqn:Hc; [discriminate|].
    destruct (isLoading s) eqn:Hl; cbn [andb]; [|discriminate].
    destruct (Z.eqb_spec (Z.of_nat i) (Z.of_nat (length (messages s)) - 1)) as [Hlen|];
      [|discriminate].
    intros _. assert (Hlen' : S i = length (messages s)) by lia.
    destruct ts as [|t [|t2 ts]]; [congruence| |contradiction].
    exists t. split; [reflexivity|]. destruct Hi as [_ Hread].
    destruct (phase t) eqn:Hph.
    + exfalso. destruct (Hlast t eq_refl Hph) as [Hnil | (pre & m' & Hpre & Hrole)].
      * rewrite Hnil in Hm. discriminate.
      * rewrite Hpre in Hm, Hlen'. apply lookup_snoc_last in Hm; [|exact Hlen'].
        subst m'. apply string_eqb_eq in Hrole. congruence.
    + split; [reflexivity|]. split; [|exact Hlen'].
      destruct (Hread eq_refl) as [Hnil | (pre & Hpre)].
      * rewrite Hnil in Hm. discriminate.
      * rewrite Hpre in Hm, Hlen'. apply lookup_snoc_last in Hm; [|exact Hlen'].
        subst m. apply truthy_false in Hc. exact Hc.
  - intros (t & -> & Hph & Ht & Hlen). destruct Hi as [Hl Hread].
    destruct (Hread Hph) as [Hnil | (pre & Hpre)].
    + rewrite Hnil in Hlen. discriminate.
    + rewrite Hl, Hpre, Ht. rewrite Hpre, length_app in Hlen. cbn [length] in Hlen.
      assert (i = length pre + 0)%nat as -> by lia.
      rewrite lookup_app_r by lia.
      replace (length pre + 0 - length pre)%nat with 0%nat by lia.
      cbn [lookup list_lookup fmap option_fmap option_map body assistant_turn
           role content truthy andb].
      rewrite length_app. cbn [length].
      destruct (Z.eqb_spec (Z.of_nat (length pre + 0)) (Z.of_nat (length pre + 1) - 1));
        [reflexivity | lia].
Qed.

Lemma dots_show_while_the_placeholder_is_empty_witness :
  reachable relay_page
    {| state := {| apiKey := []; developerMessage := []; userMessage := lit "Hello";
                   model := lit "gpt-4.1-mini";
                   messages := [ {| role := lit "user"; content := lit "Hello" |};
                                 assistant_turn [] ];
                   isLoading := true; error := [] |};
       tasks := [ {| phase := AwaitRead; assistantMessage := [];
                     decoder := TextDecoder.new |} ] |}
  /\ page relay_page = RelayKey
  /\ shows_dots
       (render relay_page
          {| apiKey := []; developerMessage := []; userMessage := lit "Hello";
             model := lit "gpt-4.1-mini";
             messages := [ {| role := lit "user"; content := lit "Hello" |};
                           assistant_turn [] ];
             isLoading := true; error := [] |}) 1 = true.
Proof.
  assert (Hr : reachable relay_page
    {| state := {| apiKey := []; developerMessage := []; userMessage := lit "Hello";
                   model := lit "gpt-4.1-mini";
                   messages := [ {| role := lit "user"; content := lit "Hello" |};
                                 assistant_turn [] ];
                   isLoading := true; error := [] |};
       tasks := [ {| phase := AwaitRead; assistantMessage := [];
                     decoder := TextDecoder.new |} ] |}).
  { exists [TypeUserMessage (lit "Hello"); Submit; FetchSettles 0 (Response 200 true)].
    reflexivity. }
  split; [exact Hr|]. split; [reflexivity|].
  apply (proj2 (dots_show_while_the_placeholder_is_empty relay_page _ 1%nat Hr eq_refl)).
  eexists. repeat split.
Defined.

(** X14: the answer on the page only grows.  In every reachable state, an
    increment leaves every turn before the last as it is and turns the last
    one, of role [assistant] with the text so far as its content, into the
    turn of the same role whose content is that text with the increment's
    text added at the end (on a cleared list it changes nothing). *)
Theorem increments_only_append env c i value c' :
  reachable env c ->
  step env c (ReadSettles i (ReadValue value)) = Some c' ->
  exists t,
    tasks c = [t] /\ i = 0%nat
    /\ (messages (state c) = [] /\ messages (state c') = []
        \/ exists pre,
             messages (state c)
             = pre ++ [ {| role := lit "assistant";
                           content := assistantMessage t |} ]
             /\ messages (state c')
                = pre ++ [ {| role := lit "assistant";
                              content :=
                                assistantMessage t
                                ++ snd (TextDecoder.decode (decoder t) value) |} ]
             /\ exists m m',
                  last (messages (state c)) = Some m
                  /\ last (messages (state c')) = Some m'
                  /\ role m' = role m
                  /\ content m'
                     = content m ++ snd (TextDecoder.decode (decoder t) value)).
Proof.
  intros Hr. apply reachable_invariant in Hr.
  destruct c as [s ts]. unfold invariant in Hr. cbn [step state tasks] in *.
  destruct ts as [|t [|t2 ts]]; [rewrite lookup_nil; discriminate| |contradiction].
  destruct i as [|i]; [|discriminate]. cbn [lookup list_lookup].
  destruct (phase t) eqn:Hp; [discriminate|]. destruct Hr as [_ Hread].
  unfold resume. cbn [after_read].
  destruct (TextDecoder.decode (decoder t) value) as [d chunk] eqn:Hd. intros [= <-].
  exists t. split; [reflexivity|]. split; [reflexivity|]. rewrite Hd. cbn.
  destruct (Hread eq_refl) as [Hnil | (pre & Hpre)].
  - left. rewrite Hnil. auto.
  - right. exists pre. rewrite Hpre. split; [reflexivity|].
    assert (Hset : array_set (pre ++ [assistant_turn (assistantMessage t)])
                     (Z.of_nat (length (pre ++ [assistant_turn (assistantMessage t)])) - 1)
                     (assistant_turn (assistantMessage t ++ chunk))
                   = pre ++ [ {| role := lit "assistant";
                                 content := assistantMessage t ++ chunk |} ])
      by apply array_set_last_snoc.
    split; [exact Hset|].
    exists {| role := lit "assistant"; content := assistantMessage t |},
           {| role := lit "assistant"; content := assistantMessage t ++ chunk |}.
    split; [apply last_snoc|]. split; [|split; reflexivity].
    etransitivity; [exact (f_equal last Hset) | apply last_snoc].
Qed.

Lemma increments_only_append_witness :
  reachable relay_page
    {| state := {| apiKey := []; developerMessage := []; userMessage := lit "Hello";
                   model := lit "gpt-4.1-mini";
                   messages := [ {| role := lit "user"; content := lit "Hello" |};
                                 {| role := lit "assistant"; content := lit "H" |} ];
                   isLoading := true; error := [] |};
       tasks := [ {| phase := AwaitRead; assistantMessage := lit "H";
                     decoder := TextDecoder.set_bom TextDecoder.new |} ] |}
  /\ exists c',
       step relay_page
         {| state := {| apiKey := []; developerMessage := []; userMessage := lit "Hello";
                        model := lit "gpt-4.1-mini";
                        messages := [ {| role := lit "user"; content := lit "Hello" |};
                                      {| role := lit "assistant"; content := lit "H" |} ];
                        isLoading := true; error := [] |};
            tasks := [ {| phase := AwaitRead; assistantMessage := lit "H";
                          decoder := TextDecoder.set_bom TextDecoder.new |} ] |}
         (ReadSettles 0 (ReadValue [0x69])) = Some c'
       /\ messages (state c')
          = [ {| role := lit "user"; content := lit "Hello" |};
              {| role := lit "assistant"; content := lit "Hi" |} ].
Proof.
  assert (Hr : reachable relay_page
    {| state := {| apiKey := []; developerMessage := []; userMessage := lit "Hello";
                   model := lit "gpt-4.1-mini";
                   messages := [ {| role := lit "user"; content := lit "Hello" |};
                                 {| role := lit "assistant"; content := lit "H" |} ];
                   isLoading := true; error := [] |};
       tasks := [ {| phase := AwaitRead; assistantMessage := lit "H";
                     decoder := TextDecoder.set_bom TextDecoder.new |} ] |}).
  { exists mid_stream. reflexivity. }
  split; [exact Hr|]. eexists. split; [reflexivity|].
  destruct (increments_only_append relay_page _ 0%nat [0x69] _ Hr eq_refl)
    as (t & Ht & _ & [[Hnil _] | (pre & Hpre & Hm & _)]).
  - discriminate Hnil.
  - injection Ht as <-. cbn [state messages assistantMessage] in Hpre.
    change [ {| role := lit "user"; content := lit "Hello" |};
             {| role := lit "assistant"; content := lit "H" |} ]
      with ([ {| role := lit "user"; content := lit "Hello" |} ]
            ++ [ {| role := lit "assistant"; content := lit "H" |} ]) in Hpre.
    apply app_inj_tail in Hpre as [<- _]. exact Hm.
Defined.


(** ** Clear Chat while the response is awaited *)

(** X16: Clear Chat does not cancel the request.  When it is pressed while
    the response is awaited, the submission goes on: once a successful
    response is in and its stream has ended, the emptied conversation holds
    one turn, without the question: its role is [assistant] and its content
    is the text of the answer. *)
Theorem clear_does_not_cancel_the_request env c t status chunks :
  tasks c = [t] -> phase t = AwaitFetch -> ok status = true ->
  let answer := snd (TextDecoder.decode TextDecoder.new (concat chunks)) in
  messages (state (after_clear c)) = []
  /\ exists c',
       run env (after_clear c)
         (FetchSettles 0 (Response status true)
          :: map (ReadSettles 0) (map ReadValue chunks ++ [ReadDone]))
       = Some c'
       /\ messages (state c') = [ {| role := lit "assistant"; content := answer |} ]
       /\ (exists m, messages (state c') = [m]
                     /\ role m = lit "assistant" /\ content m = answer)
       /\ tasks c' = []
       /\ isLoading (state c') = false.
Proof.
  intros Ht Hp Hok answer. split; [reflexivity|].
  destruct (answer_after_clear env c t status chunks Ht Hp Hok)
    as (c' & Hrun & Hm & Hts & Hl).
  exists c'. split; [exact Hrun|]. split; [exact Hm|]. split; [|auto].
  exists {| role := lit "assistant"; content := answer |}.
  split; [exact Hm | split; reflexivity].
Qed.

Lemma clear_does_not_cancel_the_request_witness :
  exists c',
    run relay_page
      (after_clear
         {| state := {| apiKey := []; developerMessage := []; userMessage := lit "Hello";
                        model := lit "gpt-4.1-mini";
                        messages := [ {| role := lit "user"; content := lit "Hello" |} ];
                        isLoading := true; error := [] |};
            tasks := [ {| phase := AwaitFetch; assistantMessage := [];
                          decoder := TextDecoder.new |} ] |})
      (FetchSettles 0 (Response 200 true)
       :: map (ReadSettles 0) (map ReadValue [[0x48]; [0x69]] ++ [ReadDone]))
    = Some c'
    /\ messages (state c') = [ {| role := lit "assistant"; content := lit "Hi" |} ]
    /\ exists m, messages (state c') = [m]
                 /\ role m = lit "assistant" /\ content m = lit "Hi".
Proof.
  destruct (clear_does_not_cancel_the_request relay_page
              {| state := {| apiKey := []; developerMessage := [];
                                  userMessage := lit "Hello"; model := lit "gpt-4.1-mini";
                                  messages := [ {| role := lit "user"; content := lit "Hello" |} ];
                                  isLoading := true; error := [] |};
                      tasks := [ {| phase := AwaitFetch; assistantMessage := [];
                                    decoder := TextDecoder.new |} ] |}
              _ 200 [[0x48]; [0x69]] eq_refl eq_refl eq_refl)
    as (_ & c' & Hrun & Hm & Hc & _).
  exists c'. split; [exact Hrun|]. split; [exact Hm | exact Hc].
Defined.
